(** * BionicPRO auth service: the session broker of [bionicpro-auth/main.py]

    A shallow embedding of the request handlers of the auth service
    (login, callback, logout, session info, validate) over Redis and the
    Keycloak token endpoint, and the properties of the session life
    cycle proved about them. *)

From Stdlib Require Import ZArith String Ascii.
From stdpp Require Import base option list gmap strings fin_maps.

Local Open Scope string_scope.
Local Open Scope list_scope.

(** ** Configuration ([config.py]) *)

Record Settings := {
  keycloak_url : string;
  keycloak_public_url : string;
  keycloak_realm : string;
  keycloak_client_id : string;
  keycloak_client_secret : string;
  redis_host : string;
  redis_port : Z;
  redis_db : Z;
  session_cookie_name : string;
  session_ttl : Z;
  access_token_ttl : Z;
  token_encryption_key : string;
  frontend_url : string
}.

(** The defaults of [class Settings]. *)
Definition default_settings : Settings := {|
  keycloak_url := "http://keycloak:8080";
  keycloak_public_url := "http://localhost:8080";
  keycloak_realm := "reports-realm";
  keycloak_client_id := "reports-frontend";
  keycloak_client_secret := "";
  redis_host := "redis";
  redis_port := 6379;
  redis_db := 0;
  session_cookie_name := "bionicpro_session";
  session_ttl := 3600;
  access_token_ttl := 120;
  token_encryption_key := "your-32-byte-encryption-key-here!";
  frontend_url := "http://localhost:3000"
|}.

(** ** JSON values and Python exceptions *)

Inductive jvalue :=
| JStr (s : string)
| JNum (n : Z)
| JBool (b : bool)
| JNull.

(** A JSON object, as [response.json()] returns it and as a handler
    returns it. *)
Abbreviation json := (gmap string jvalue).

Inductive exn :=
| HTTPException (status_code : Z) (detail : string)
| InvalidToken                 (* cryptography.fernet.InvalidToken *)
| RequestError                 (* httpx: connection failure or timeout *)
| JSONDecodeError              (* the reply is not a JSON object *)
| KeyError (key : string)
| AttributeError               (* [.encode()] on a value that is no str *)
| TypeError.                   (* [float + x] on a value that is no number *)

(** ** The stored session ([session_data] of [callback]) *)

Record session := {
  access_token : string;             (* Fernet ciphertext *)
  refresh_token : string;            (* Fernet ciphertext *)
  access_token_expires_at : Z;
  created_at : Z;
  user_info : option json
}.

(** Timestamps ([time.time()]) and durations are integers in one fixed
    unit; the handlers only add and compare them. *)

(** ** Redis

    The service uses two families of keys, [session:<id>] and
    [pkce:<state>]; they differ in their first character, so the key
    space splits into two maps.  A session is stored as
    [json.dumps(data)] and read back with [json.loads], which returns the
    dictionary that was stored; the map holds the dictionary.  Every
    entry records the time-to-live it was written with ([SETEX]). *)

Record redis := {
  sessions : gmap string (Z * session);
  pkce : gmap string (Z * string)
}.

Inductive redis_cmd : Type → Type :=
| GET_session (session_id : string) : redis_cmd (option session)
| SETEX_session (session_id : string) (ttl : Z) (data : session) : redis_cmd unit
| DEL_session (session_id : string) : redis_cmd unit
| GET_pkce (state : string) : redis_cmd (option string)
| SETEX_pkce (state : string) (ttl : Z) (code_verifier : string) : redis_cmd unit
| DEL_pkce (state : string) : redis_cmd unit.

Definition redis_exec {X} (c : redis_cmd X) (r : redis) : X * redis :=
  match c in redis_cmd X return X * redis with
  | GET_session k => (snd <$> sessions r !! k, r)
  | SETEX_session k ttl d =>
      (tt, {| sessions := <[k := (ttl, d)]> (sessions r); pkce := pkce r |})
  | DEL_session k =>
      (tt, {| sessions := delete k (sessions r); pkce := pkce r |})
  | GET_pkce k => (snd <$> pkce r !! k, r)
  | SETEX_pkce k ttl v =>
      (tt, {| sessions := sessions r; pkce := <[k := (ttl, v)]> (pkce r) |})
  | DEL_pkce k =>
      (tt, {| sessions := sessions r; pkce := delete k (pkce r) |})
  end.

(** ** The identity provider, seen through [httpx]

    A call is the form posted to a URL.  It either comes back with a
    status code and a body, or raises (connection failure, timeout). *)

Record http_request := {
  url : string;
  data : list (string * string)
}.

Inductive http_result :=
| HttpResponse (status_code : Z) (body : option json)
| HttpFailure.

(** The provider answers a call knowing the calls made before it. *)
Abbreviation provider := (list http_request → http_request → http_result).

(** ** Handlers as programs

    A handler is a tree of Redis commands (synchronous) and awaited HTTP
    calls; [Await] is the only point where a coroutine gives up control. *)

Inductive prog (A : Type) : Type :=
| Ret (a : A)
| Raise (e : exn)
| Redis {X : Type} (c : redis_cmd X) (k : X → prog A)
| Await (c : http_request) (k : http_result → prog A).

Arguments Ret {A} a.
Arguments Raise {A} e.
Arguments Redis {A X} c k.
Arguments Await {A} c k.

Fixpoint prog_bind {A B} (f : A → prog B) (p : prog A) : prog B :=
  match p with
  | Ret a => f a
  | Raise e => Raise e
  | Redis c k => Redis c (λ x, prog_bind f (k x))
  | Await c k => Await c (λ r, prog_bind f (k r))
  end.

#[global] Instance prog_mret : MRet prog := λ A a, Ret a.
#[global] Instance prog_mbind : MBind prog := λ A B f p, prog_bind f p.

(** [try: p except Exception: h] *)
Fixpoint try_except {A} (p : prog A) (h : exn → prog A) : prog A :=
  match p with
  | Ret a => Ret a
  | Raise e => h e
  | Redis c k => Redis c (λ x, try_except (k x) h)
  | Await c k => Await c (λ r, try_except (k r) h)
  end.

Definition redis_do {X} (c : redis_cmd X) : prog X := Redis c Ret.

(** ** Running one handler to completion *)

Record world := {
  store : redis;
  upstream : list http_request     (* the calls made so far, oldest first *)
}.

Inductive outcome (A : Type) :=
| Returned (a : A)
| Raised (e : exn).
Arguments Returned {A} a.
Arguments Raised {A} e.

Fixpoint run {A} (kc : provider) (p : prog A) (w : world) : outcome A * world :=
  match p with
  | Ret a => (Returned a, w)
  | Raise e => (Raised e, w)
  | Redis c k =>
      let '(x, r) := redis_exec c (store w) in
      run kc (k x) {| store := r; upstream := upstream w |}
  | Await c k =>
      run kc (k (kc (upstream w) c))
          {| store := store w; upstream := upstream w ++ [c] |}
  end.

(** ** Module-level handles

    [settings], the Fernet object of [get_fernet] and the library
    functions the handlers call.  Fernet is authenticated encryption:
    decrypting what was encrypted under the same key gives the plain text
    back, anything else may fail with [InvalidToken]. *)

Class Runtime := {
  settings : Settings;
  fernet_encrypt : string → string → string;
  fernet_decrypt : string → string → option string;
  fernet_decrypt_encrypt :
    ∀ key t, fernet_decrypt key (fernet_encrypt key t) = Some t;
  sha256_b64url : string → string;   (* urlsafe_b64encode(sha256(v)).rstrip('=') *)
  isoformat : Z → string             (* datetime.fromtimestamp(t).isoformat() *)
}.

(** ** HTTP responses *)

Inductive cookie_op :=
| SetCookie (key value : string) (httponly secure : bool)
            (samesite : string) (max_age : Z)
| DeleteCookie (key : string).

Inductive Response :=
| RedirectResponse (url : string) (cookies : list cookie_op)
| JSONResponse (content : json) (cookies : list cookie_op).

Record Request := { cookies : gmap string string }.

(** Python truthiness of an [Optional[str]]. *)
Definition truthy (o : option string) : option string :=
  match o with
  | Some s => if decide (s = "") then None else Some s
  | None => None
  end.

Fixpoint replicate_char (n : nat) (c : Ascii.ascii) : string :=
  match n with
  | O => ""
  | S n => String c (replicate_char n c)
  end.

Definition ljust (n : nat) (c : Ascii.ascii) (s : string) : string :=
  s +:+ replicate_char (n - String.length s) c.

Section Service.
Context `{!Runtime}.

(** *** Helpers of [main.py] *)

Definition get_fernet : string :=
  ljust 32 "0"%char (substring 0 32 (token_encryption_key settings)).

Definition generate_session_id (token_urlsafe_32 : string) : string :=
  token_urlsafe_32.

Definition generate_pkce_verifier (token_urlsafe_64 : string) : string :=
  substring 0 128 token_urlsafe_64.

Definition generate_pkce_challenge (verifier : string) : string :=
  sha256_b64url verifier.

Definition encrypt_token (token : string) : string :=
  fernet_encrypt get_fernet token.

Definition decrypt_token (encrypted_token : string) : prog string :=
  match fernet_decrypt get_fernet encrypted_token with
  | Some t => Ret t
  | None => Raise InvalidToken
  end.

Definition store_session (session_id : string) (d : session)
    (ttl : option Z) : prog unit :=
  let ttl := default (session_ttl settings) ttl in
  redis_do (SETEX_session session_id ttl d).

Definition get_session (session_id : string) : prog (option session) :=
  redis_do (GET_session session_id).

Definition delete_session (session_id : string) : prog unit :=
  redis_do (DEL_session session_id).

Definition set_session_cookie (response : Response) (session_id : string)
    : Response :=
  let c := SetCookie (session_cookie_name settings) session_id true true
                     "lax" (session_ttl settings) in
  match response with
  | RedirectResponse u cs => RedirectResponse u (cs ++ [c])
  | JSONResponse b cs => JSONResponse b (cs ++ [c])
  end.

Definition delete_cookie (response : Response) (key : string) : Response :=
  match response with
  | RedirectResponse u cs => RedirectResponse u (cs ++ [DeleteCookie key])
  | JSONResponse b cs => JSONResponse b (cs ++ [DeleteCookie key])
  end.

Definition get_session_id_from_request (request : Request) : option string :=
  cookies request !! session_cookie_name settings.

(** *** Python expressions the handlers evaluate on a reply *)

(** [tokens[key]] *)
Definition subscript (d : json) (key : string) : prog jvalue :=
  match d !! key with
  | Some v => Ret v
  | None => Raise (KeyError key)
  end.

(** [token.encode()] inside [encrypt_token]: only a str has it. *)
Definition encode (v : jvalue) : prog string :=
  match v with
  | JStr s => Ret s
  | _ => Raise AttributeError
  end.

(** [t + v] for a float [t]; a Python bool is an int. *)
Definition add_number (t : Z) (v : jvalue) : prog Z :=
  match v with
  | JNum n => Ret (t + n)%Z
  | JBool b => Ret (t + (if b then 1 else 0))%Z
  | _ => Raise TypeError
  end.

(** [response.json()] *)
Definition response_json (b : option json) : prog json :=
  match b with
  | Some j => Ret j
  | None => Raise JSONDecodeError
  end.

(** [await client.post(url, data=data)] *)
Definition client_post (u : string) (d : list (string * string))
    : prog (Z * option json) :=
  Await {| url := u; data := d |}
        (λ r, match r with
              | HttpResponse st b => Ret (st, b)
              | HttpFailure => Raise RequestError
              end).

Definition token_url : string :=
  keycloak_url settings +:+ "/realms/" +:+ keycloak_realm settings
    +:+ "/protocol/openid-connect/token".

Definition logout_url : string :=
  keycloak_url settings +:+ "/realms/" +:+ keycloak_realm settings
    +:+ "/protocol/openid-connect/logout".

(** [if settings.keycloak_client_secret: data["client_secret"] = ...] *)
Definition with_client_secret (d : list (string * string))
    : list (string * string) :=
  if decide (keycloak_client_secret settings = "") then d
  else d ++ [("client_secret", keycloak_client_secret settings)].

Definition get_keycloak_token (code code_verifier redirect_uri : string)
    : prog json :=
  '(st, b) ← client_post token_url
     (with_client_secret
        [("grant_type", "authorization_code");
         ("client_id", keycloak_client_id settings);
         ("code", code);
         ("redirect_uri", redirect_uri);
         ("code_verifier", code_verifier)]);
  if decide (st ≠ 200%Z)
  then Raise (HTTPException 401 "Token exchange failed")
  else response_json b.

Definition refresh_request (refresh_token : string) : http_request :=
  {| url := token_url;
     data := with_client_secret
        [("grant_type", "refresh_token");
         ("client_id", keycloak_client_id settings);
         ("refresh_token", refresh_token)] |}.

Definition refresh_access_token (refresh_token : string) : prog json :=
  '(st, b) ← client_post (url (refresh_request refresh_token))
                         (data (refresh_request refresh_token));
  if decide (st ≠ 200%Z)
  then Raise (HTTPException 401 "Token refresh failed")
  else response_json b.

(** *** The handlers

    [time.time()] and [secrets.token_urlsafe] are inputs of a handler:
    every reading of the clock and every random draw is an argument. *)

Definition redirect_uri : string := "http://localhost:8001/auth/callback".

Definition auth_url (state code_challenge : string) : string :=
  keycloak_public_url settings +:+ "/realms/" +:+ keycloak_realm settings
    +:+ "/protocol/openid-connect/auth"
    +:+ "?client_id=" +:+ keycloak_client_id settings
    +:+ "&redirect_uri=" +:+ redirect_uri
    +:+ "&response_type=code"
    +:+ "&scope=openid profile email"
    +:+ "&state=" +:+ state
    +:+ "&code_challenge=" +:+ code_challenge
    +:+ "&code_challenge_method=S256".

(** [GET /auth/login] *)
Definition login (request : Request) (token_urlsafe_64 token_urlsafe_32 : string)
    : prog Response :=
  let code_verifier := generate_pkce_verifier token_urlsafe_64 in
  let code_challenge := generate_pkce_challenge code_verifier in
  let state := token_urlsafe_32 in
  redis_do (SETEX_pkce state 300 code_verifier);;
  Ret (RedirectResponse (auth_url state code_challenge) []).

(** [tokens.get("expires_in", settings.access_token_ttl)] *)
Definition expires_in (tokens : json) : jvalue :=
  default (JNum (access_token_ttl settings)) (tokens !! "expires_in").

(** [GET /auth/callback]; [time1] and [time2] are the two readings of the
    clock in the dictionary literal. *)
Definition callback (request : Request) (code state : string)
    (token_urlsafe_32 : string) (time1 time2 : Z) : prog Response :=
  code_verifier ← redis_do (GET_pkce state);
  match truthy code_verifier with
  | None => Raise (HTTPException 400 "Invalid or expired state")
  | Some code_verifier =>
      redis_do (DEL_pkce state);;
      tokens ← get_keycloak_token code code_verifier redirect_uri;
      let session_id := generate_session_id token_urlsafe_32 in
      a ← subscript tokens "access_token";
      a ← encode a;
      r ← subscript tokens "refresh_token";
      r ← encode r;
      e ← add_number time1 (expires_in tokens);
      let session_data :=
        {| access_token := encrypt_token a;
           refresh_token := encrypt_token r;
           access_token_expires_at := e;
           created_at := time2;
           user_info := None |} in
      store_session session_id session_data None;;
      Ret (set_session_cookie (RedirectResponse (frontend_url settings) [])
                              session_id)
  end.

(** [GET /auth/logout] *)
Definition logout (request : Request) : prog Response :=
  match truthy (get_session_id_from_request request) with
  | Some session_id =>
      session ← get_session session_id;
      match session with
      | Some session =>
          try_except
            (refresh_token ← decrypt_token (refresh_token session);
             client_post logout_url
               [("client_id", keycloak_client_id settings);
                ("refresh_token", refresh_token)];;
             Ret tt)
            (λ _, Ret tt)
      | None => Ret tt
      end;;
      delete_session session_id
  | None => Ret tt
  end;;
  Ret (delete_cookie (RedirectResponse (frontend_url settings) [])
                     (session_cookie_name settings)).

(** The three assignments to [session[...]] in the [try] block of
    [get_session_info] and of [validate_session]; the other keys of the
    dictionary stay as they are. *)
Definition assign_new_tokens (s : session) (current_time : Z)
    (new_tokens : json) : prog session :=
  a ← subscript new_tokens "access_token";
  a ← encode a;
  r ← subscript new_tokens "refresh_token";
  r ← encode r;
  e ← add_number current_time (expires_in new_tokens);
  Ret {| access_token := encrypt_token a;
         refresh_token := encrypt_token r;
         access_token_expires_at := e;
         created_at := created_at s;
         user_info := user_info s |}.

Definition session_status (s : session) : json :=
  {[ "authenticated" := JBool true;
     "session_valid_until" :=
       JStr (isoformat (created_at s + session_ttl settings)) ]}.

(** [GET /auth/session] *)
Definition get_session_info (request : Request) (current_time : Z)
    (token_urlsafe_32 : string) : prog Response :=
  match truthy (get_session_id_from_request request) with
  | None => Raise (HTTPException 401 "No session")
  | Some session_id =>
      session ← get_session session_id;
      match session with
      | None => Raise (HTTPException 401 "Invalid session")
      | Some session =>
          session ←
            (if (current_time >=? access_token_expires_at session)%Z
             then
               try_except
                 (refresh_token ← decrypt_token (refresh_token session);
                  new_tokens ← refresh_access_token refresh_token;
                  assign_new_tokens session current_time new_tokens)
                 (λ _, delete_session session_id;;
                       Raise (HTTPException 401 "Session expired"))
             else Ret session);
          let new_session_id := generate_session_id token_urlsafe_32 in
          delete_session session_id;;
          store_session new_session_id session None;;
          Ret (set_session_cookie (JSONResponse (session_status session) [])
                                  new_session_id)
      end
  end.

(** [GET /auth/validate]; FastAPI sends the returned dictionary as a
    JSON response. *)
Definition validate_session (request : Request) (current_time : Z)
    : prog Response :=
  match truthy (get_session_id_from_request request) with
  | None => Raise (HTTPException 401 "No session")
  | Some session_id =>
      session ← get_session session_id;
      match session with
      | None => Raise (HTTPException 401 "Invalid session")
      | Some session =>
          session ←
            (if (current_time >=? access_token_expires_at session)%Z
             then
               try_except
                 (refresh_token ← decrypt_token (refresh_token session);
                  new_tokens ← refresh_access_token refresh_token;
                  session ← assign_new_tokens session current_time new_tokens;
                  store_session session_id session None;;
                  Ret session)
                 (λ _, delete_session session_id;;
                       Raise (HTTPException 401 "Session expired"))
             else Ret session);
          access_token ← decrypt_token (access_token session);
          Ret (JSONResponse {[ "access_token" := JStr access_token ]} [])
      end
  end.

(** [GET /health] *)
Definition health : prog Response :=
  Ret (JSONResponse {[ "status" := JStr "healthy" ]} []).

End Service.

(** ** Coroutines on one event loop

    The handlers are [async def] coroutines served by one event loop
    ([uvicorn.run(app, ...)]): a coroutine runs until it awaits, and the
    Redis client is synchronous, so the commands between two awaits are
    never interleaved with another request.  A task is the rest of a
    handler; a scheduling step takes one task, answers the call it waits
    for (if any) and runs it up to its next [Await] or to its end. *)

Fixpoint advance {A} (p : prog A) (r : redis) : prog A * redis :=
  match p with
  | Redis c k => let '(x, r') := redis_exec c r in advance (k x) r'
  | _ => (p, r)
  end.

Record server := {
  tasks : list (prog Response);
  state : world
}.

Definition resume (kc : provider) (p : prog Response) (w : world)
    : prog Response * world :=
  match p with
  | Await c k =>
      let '(p', r) := advance (k (kc (upstream w) c)) (store w) in
      (p', {| store := r; upstream := upstream w ++ [c] |})
  | _ =>
      let '(p', r) := advance p (store w) in
      (p', {| store := r; upstream := upstream w |})
  end.

Definition sched_step (kc : provider) (s : server) (i : nat) : server :=
  match tasks s !! i with
  | Some p =>
      let '(p', w') := resume kc p (state s) in
      {| tasks := <[i := p']> (tasks s); state := w' |}
  | None => s
  end.

Definition schedule (kc : provider) (order : list nat) (s : server) : server :=
  foldl (sched_step kc) s order.

(** Redis drops a key when its time-to-live has run out. *)
Definition expire_session (session_id : string) (w : world) : world :=
  {| store := {| sessions := delete session_id (sessions (store w));
                 pkce := pkce (store w) |};
     upstream := upstream w |}.

Definition expire_pkce (st : string) (w : world) : world :=
  {| store := {| sessions := sessions (store w);
                 pkce := delete st (pkce (store w)) |};
     upstream := upstream w |}.

Definition initial_world : world :=
  {| store := {| sessions := ∅; pkce := ∅ |}; upstream := [] |}.

Section Reachable.
Context `{!Runtime}.

(** The requests the service answers, with the inputs they draw. *)
Inductive handler : prog Response → Prop :=
| h_login request v st : handler (login request v st)
| h_callback request code st sid t1 t2 :
    handler (callback request code st sid t1 t2)
| h_logout request : handler (logout request)
| h_session request now sid : handler (get_session_info request now sid)
| h_validate request now : handler (validate_session request now)
| h_health : handler health.

(** The states of the running service: requests arrive at any time,
    tasks are scheduled in any order, keys expire. *)
Inductive reachable (kc : provider) : server → Prop :=
| reach_start :
    reachable kc {| tasks := []; state := initial_world |}
| reach_request s p :
    reachable kc s → handler p →
    reachable kc {| tasks := tasks s ++ [p]; state := state s |}
| reach_sched s i :
    reachable kc s → reachable kc (sched_step kc s i)
| reach_expire_session s sid :
    reachable kc s →
    reachable kc {| tasks := tasks s; state := expire_session sid (state s) |}
| reach_expire_pkce s st :
    reachable kc s →
    reachable kc {| tasks := tasks s; state := expire_pkce st (state s) |}.

(** What a stored record holds in place of the two tokens. *)
Definition encrypted (s : session) : Prop :=
  ∃ a r, access_token s = encrypt_token a ∧ refresh_token s = encrypt_token r.

Definition store_encrypted (r : redis) : Prop :=
  ∀ sid ttl s, sessions r !! sid = Some (ttl, s) → encrypted s.

End Reachable.

(** ** Properties of a program tree *)

(** Every record the program writes satisfies [P], given that the
    records it reads do. *)
Fixpoint writes {A} (P : session → Prop) (p : prog A) : Prop :=
  match p with
  | Ret _ | Raise _ => True
  | Redis c k =>
      match c in redis_cmd X return (X → prog A) → Prop with
      | GET_session _ =>
          λ k, writes P (k None) ∧ ∀ s, P s → writes P (k (Some s))
      | SETEX_session _ _ d => λ k, P d ∧ writes P (k tt)
      | DEL_session _ => λ k, writes P (k tt)
      | GET_pkce _ => λ k, ∀ v, writes P (k v)
      | SETEX_pkce _ _ _ => λ k, writes P (k tt)
      | DEL_pkce _ => λ k, writes P (k tt)
      end k
  | Await _ k => ∀ r, writes P (k r)
  end.

(** Every value the program can return satisfies [Q]. *)
Fixpoint returns {A} (Q : A → Prop) (p : prog A) : Prop :=
  match p with
  | Ret a => Q a
  | Raise _ => True
  | Redis _ k => ∀ x, returns Q (k x)
  | Await _ k => ∀ r, returns Q (k r)
  end.


(** The session records of a store all satisfy [P]. *)
Definition holds (P : session → Prop) (r : redis) : Prop :=
  ∀ sid ttl s, sessions r !! sid = Some (ttl, s) → P s.

#[global] Instance http_request_eq_dec : EqDecision http_request.
Proof. solve_decision. Defined.

Section Responses.
Context `{!Runtime}.

(** The responses that go to the browser, as functions of what they are
    built from: the settings, the PKCE state and verifier, a session
    identifier, the creation time of the session. *)
Definition login_response (st token_urlsafe_64 : string) : Response :=
  RedirectResponse
    (auth_url st
       (generate_pkce_challenge (generate_pkce_verifier token_urlsafe_64)))
    [].

Definition session_cookie (session_id : string) : cookie_op :=
  SetCookie (session_cookie_name settings) session_id true true "lax"
            (session_ttl settings).

Definition callback_response (session_id : string) : Response :=
  RedirectResponse (frontend_url settings) [session_cookie session_id].

Definition logout_response : Response :=
  RedirectResponse (frontend_url settings)
                   [DeleteCookie (session_cookie_name settings)].

Definition session_response (created : Z) (session_id : string) : Response :=
  JSONResponse
    {[ "authenticated" := JBool true;
       "session_valid_until" :=
         JStr (isoformat (created + session_ttl settings)) ]}
    [session_cookie session_id].

Definition validate_response (token : string) : Response :=
  JSONResponse {[ "access_token" := JStr token ]} [].

(** A request that carries [session_id] in the session cookie. *)
Definition carries (request : Request) (session_id : string) : Prop :=
  truthy (get_session_id_from_request request) = Some session_id.

End Responses.

(** ** A small deployment to evaluate the handlers on

    The default settings; a stand-in cipher that prefixes the plain text,
    so that any text without the prefix fails to decrypt. *)
Module Demo.

Definition toy_encrypt (key t : string) : string := "enc:" +:+ t.

Definition toy_decrypt (key c : string) : option string :=
  match c with
  | String "e" (String "n" (String "c" (String ":" t))) => Some t
  | _ => None
  end.

Definition runtime : Runtime := {|
  settings := default_settings;
  fernet_encrypt := toy_encrypt;
  fernet_decrypt := toy_decrypt;
  fernet_decrypt_encrypt := λ _ _, eq_refl;
  sha256_b64url := λ v, "S256:" +:+ v;
  isoformat := λ t, "T"
|}.

Definition with_cookie (sid : string) : Request :=
  {| cookies := {[ "bionicpro_session" := sid ]} |}.

Definition no_cookie : Request := {| cookies := ∅ |}.

Definition tokens (a r : string) (ttl : Z) : json :=
  {[ "access_token" := JStr a; "refresh_token" := JStr r;
     "expires_in" := JNum ttl ]}.

Definition token_reply (a r : string) (ttl : Z) : http_result :=
  HttpResponse 200 (Some (tokens a r ttl)).

(** A provider that accepts everything. *)
Definition kc_accept : provider := λ _ _, token_reply "AT1" "RT1" 300.

(** A provider that cannot be reached. *)
Definition kc_down : provider := λ _ _, HttpFailure.

(** A provider that answers a form once: posting the same form again
    (the same code, the same refresh token) is rejected. *)
Definition kc_once : provider :=
  λ history c,
    if decide (c ∈ history) then HttpResponse 400 None
    else token_reply "AT1" "RT1" 300.

Definition record (a r : string) (expires created : Z) : session :=
  {| access_token := a; refresh_token := r;
     access_token_expires_at := expires; created_at := created;
     user_info := None |}.

(** One session, [sid0], created at time 1000 and good until 1300. *)
Definition world1 : world :=
  {| store := {| sessions := {[ "sid0" := (3600%Z, record "enc:AT0" "enc:RT0" 1300 1000) ]};
                 pkce := ∅ |};
     upstream := [] |}.

(** The same session with an access token that does not decrypt. *)
Definition world_corrupt : world :=
  {| store := {| sessions := {[ "sid0" := (3600%Z, record "garbage" "enc:RT0" 1300 1000) ]};
                 pkce := ∅ |};
     upstream := [] |}.

(** The same session with a refresh token that does not decrypt. *)
Definition world_corrupt_refresh : world :=
  {| store := {| sessions := {[ "sid0" := (3600%Z, record "enc:AT0" "garbage" 1300 1000) ]};
                 pkce := ∅ |};
     upstream := [] |}.

(** The service after one login and its callback at time 1000. *)
Definition server1 : server :=
  schedule kc_accept [0; 1; 1]
    {| tasks := [@login runtime no_cookie "verifier0" "st0";
                 @callback runtime no_cookie "code0" "st0" "sid0" 1000 1000];
       state := initial_world |}.

(** One PKCE binding, as [login] leaves it. *)
Definition world_pkce : world :=
  {| store := {| sessions := ∅; pkce := {[ "st0" := (300%Z, "verifier0") ]} |};
     upstream := [] |}.

End Demo.

(** ** Requests served one after another *)


Section Browser.
Context `{!Runtime}.

(** A browser that keeps the session cookie: it presents the identifier
    it holds, and takes the new one when Session-Info sets it. *)
Inductive visit :=
| Visit_session (now : Z) (token_urlsafe_32 : string)
| Visit_validate (now : Z).

Definition cookie_request (session_id : string) : Request :=
  {| cookies := {[ session_cookie_name settings := session_id ]} |}.

Fixpoint browse (kc : provider) (vs : list visit) (session_id : string)
    (w : world) : list (outcome Response) * (string * world) :=
  match vs with
  | [] => ([], (session_id, w))
  | Visit_session now token :: vs =>
      let '(o, w1) :=
        run kc (get_session_info (cookie_request session_id) now token) w in
      let held := match o with
                  | Returned _ => token
                  | Raised _ => session_id
                  end in
      let '(os, end_) := browse kc vs held w1 in
      (o :: os, end_)
  | Visit_validate now :: vs =>
      let '(o, w1) :=
        run kc (validate_session (cookie_request session_id) now) w in
      let '(os, end_) := browse kc vs session_id w1 in
      (o :: os, end_)
  end.

End Browser.

(** A provider whose replies carry no [expires_in]. *)
Module MoreDemo.



End MoreDemo.

(** ** Further notions of the auth service *)

Section MoreNotions.
Context `{!Runtime}.

(** The form [logout] posts to the provider's logout endpoint. *)
Definition revoke_request (refresh_token : string) : http_request :=
  {| url := logout_url;
     data := [("client_id", keycloak_client_id settings);
              ("refresh_token", refresh_token)] |}.

End MoreNotions.

(** A task that has returned or raised. *)
Definition finished {A} (p : prog A) : Prop :=
  match p with
  | Ret _ | Raise _ => True
  | _ => False
  end.

(** ** The reports service ([reports-api/src/main.py])

    The service that the auth service's [/auth/validate] serves: it asks
    for the caller's access token, reads the claims, and answers with the
    caller's report, from the S3 cache or from ClickHouse. *)
Module Reports.

Record Settings := {
  auth_service_url : string;
  clickhouse_host : string;
  clickhouse_port : Z;
  clickhouse_database : string;
  s3_endpoint_url : string;
  s3_access_key : string;
  s3_secret_key : string;
  s3_bucket : string;
  cdn_base_url : string;
  frontend_url : string;
  keycloak_url : string;
  keycloak_realm : string
}.

Definition default_settings : Settings := {|
  auth_service_url := "http://bionicpro-auth:8001";
  clickhouse_host := "clickhouse";
  clickhouse_port := 9000;
  clickhouse_database := "bionicpro";
  s3_endpoint_url := "http://minio:9000";
  s3_access_key := "minioadmin";
  s3_secret_key := "minioadmin";
  s3_bucket := "reports";
  cdn_base_url := "http://localhost:8082";
  frontend_url := "http://localhost:3000";
  keycloak_url := "http://keycloak:8080";
  keycloak_realm := "reports-realm"
|}.

(** Python floats: the type and the operations the handler uses on
    them. *)
Class Floats := {
  float : Type;
  float_truthy : float → bool;          (* [if x] *)
  float_of_int : Z → float;
  float_add : float → float → float;
  float_div : float → float → float
}.

Section Values.
Context `{!Floats}.

(** Python values as they come out of JSON and go into it. *)
#[local] Unset Elimination Schemes.
Inductive pyval :=
| PyNone
| PyBool (b : bool)
| PyInt (n : Z)
| PyFloat (x : float)
| PyStr (s : string)
| PyList (l : list pyval)
| PyDict (d : list (string * pyval)).
#[local] Set Elimination Schemes.

(** [d.get(key)] *)
Fixpoint dict_get (d : list (string * pyval)) (key : string) : option pyval :=
  match d with
  | [] => None
  | (k, v) :: d => if decide (k = key) then Some v else dict_get d key
  end.

(** [bool(v)] *)
Definition py_truthy (v : pyval) : bool :=
  match v with
  | PyNone => false
  | PyBool b => b
  | PyInt n => negb (n =? 0)%Z
  | PyFloat x => float_truthy x
  | PyStr s => negb (String.eqb s "")
  | PyList l => match l with [] => false | _ => true end
  | PyDict d => match d with [] => false | _ => true end
  end.

(** [type(v).__name__] *)
Definition py_type_name (v : pyval) : string :=
  match v with
  | PyNone => "NoneType"
  | PyBool _ => "bool"
  | PyInt _ => "int"
  | PyFloat _ => "float"
  | PyStr _ => "str"
  | PyList _ => "list"
  | PyDict _ => "dict"
  end.

(** [x + y] on the numbers [sum] meets: it starts from the int 0 and
    adds floats or ints. *)
Definition py_add (x y : pyval) : pyval :=
  match x, y with
  | PyInt a, PyInt b => PyInt (a + b)
  | PyInt a, PyFloat b => PyFloat (float_add (float_of_int a) b)
  | PyFloat a, PyInt b => PyFloat (float_add a (float_of_int b))
  | PyFloat a, PyFloat b => PyFloat (float_add a b)
  | _, _ => PyNone
  end.

(** [sum(xs)] *)
Definition py_sum (xs : list pyval) : pyval := foldl py_add (PyInt 0) xs.

(** [x / n] for a count [n]: true division, a float. *)
Definition py_div (x : pyval) (n : nat) : pyval :=
  match x with
  | PyInt a => PyFloat (float_div (float_of_int a) (float_of_int (Z.of_nat n)))
  | PyFloat a => PyFloat (float_div a (float_of_int (Z.of_nat n)))
  | _ => PyNone
  end.

End Values.

(** The library functions of the service: [str()] as the f-strings apply
    it, which returns a str as it is; the claims of a token, read without
    checking its signature, or the text of the exception; the text of a
    pydantic validation error. *)
Class Runtime := {
  settings : Settings;
  floats :: Floats;
  py_str : pyval → string;
  py_str_str : ∀ s, py_str (PyStr s) = s;
  get_unverified_claims : pyval → string + list (string * pyval);
  validation_error : string
}.

Inductive exn :=
| HTTPException (status_code : Z) (detail : string)
| Unhandled (text : string).            (* FastAPI answers 500 *)

Inductive outcome (A : Type) :=
| Returned (a : A)
| Raised (e : exn).
Arguments Returned {A} a.
Arguments Raised {A} e.

(** The answer of the auth service to [GET /auth/validate]. *)
Inductive http_result `{!Floats} :=
| HttpResponse (status_code : Z) (body : option pyval)
| HttpFailure (text : string).

(** A row of [reports_datamart] as the query selects it, with the column
    types of the table: [user_id], [report_date] (as [str] prints it),
    [total_usage_hours], [avg_battery_level], [total_movements],
    [error_count], [last_sync_date]. *)
Record row `{!Floats} := {
  r0 : string;
  r1 : string;
  r2 : float;
  r3 : float;
  r4 : Z;
  r5 : Z;
  r6 : string
}.

Record ReportResponse `{!Floats} := {
  user_id : string;
  username : string;
  report_date : string;
  report_url : option string;
  data : option pyval;
  message : option string
}.

(** The dictionary [get_current_user] returns. *)
Record user `{!Floats} := {
  u_user_id : pyval;
  u_username : pyval;
  u_email : pyval;
  u_roles : pyval
}.

(** What a request meets outside the process: the clock, the S3 bucket
    answering or not, ClickHouse answering the query with rows or
    failing with a text. *)
Record env `{!Floats} := {
  today : string;                 (* datetime.now().strftime("%Y-%m-%d") *)
  month_ago : string;             (* the same, thirty days back *)
  generated_at : string;          (* datetime.now().isoformat() *)
  head_answers : bool;
  put_answers : bool;
  clickhouse : pyval → string → string → string + list row
}.

Section Service.
Context `{!Runtime}.

(** [payload.get(key)]: [None] for a missing key. *)
Definition claim (payload : list (string * pyval)) (key : string) : pyval :=
  default PyNone (dict_get payload key).

(** [get_current_user], given the answer of the auth service. *)
Definition get_current_user (response : http_result) : outcome user :=
  match response with
  | HttpFailure text => Raised (Unhandled text)
  | HttpResponse status_code body =>
      if decide (status_code ≠ 200%Z)
      then Raised (HTTPException 401 "Unauthorized")
      else
        match body with
        | None => Raised (Unhandled "JSONDecodeError")
        | Some (PyDict d) =>
            let access_token := claim d "access_token" in
            if negb (py_truthy access_token)
            then Raised (HTTPException 401 "No access token")
            else
              match get_unverified_claims access_token with
              | inl text =>
                  Raised (HTTPException 401 ("Invalid token: " +:+ text))
              | inr payload =>
                  match default (PyDict []) (dict_get payload "realm_access") with
                  | PyDict realm_access =>
                      Returned
                        {| u_user_id := claim payload "sub";
                           u_username := claim payload "preferred_username";
                           u_email := claim payload "email";
                           u_roles := default (PyList [])
                                        (dict_get realm_access "roles") |}
                  | v =>
                      Raised (HTTPException 401
                                ("Invalid token: '" +:+ py_type_name v
                                 +:+ "' object has no attribute 'get'"))
                  end
              end
        | Some v =>
            Raised (Unhandled ("'" +:+ py_type_name v
                               +:+ "' object has no attribute 'get'"))
        end
  end.

Definition get_report_s3_key (user_id : pyval) (report_date : string) : string :=
  "reports/" +:+ py_str user_id +:+ "/" +:+ report_date +:+ "/report.json".

(** [ReportResponse(...)]: pydantic takes a str for a str field. *)
Definition new_ReportResponse (user_id username : pyval) (report_date : string)
    (report_url : option string) (data : option pyval)
    (message : option string) : option ReportResponse :=
  match user_id, username with
  | PyStr i, PyStr n =>
      Some {| user_id := i; username := n; report_date := report_date;
              report_url := report_url; data := data; message := message |}
  | _, _ => None
  end.

Definition daily (r : row) : pyval :=
  PyDict [("date", PyStr (r1 r));
          ("usage_hours", PyFloat (r2 r));
          ("battery_level", PyFloat (r3 r));
          ("movements", PyInt (r4 r));
          ("errors", PyInt (r5 r))].

Definition summary (result : list row) : pyval :=
  PyDict
    [("total_days", PyInt (Z.of_nat (length result)));
     ("total_usage_hours",
        py_sum (PyFloat <$> filter (λ x, float_truthy x = true) (r2 <$> result)));
     ("avg_battery_level",
        py_div
          (py_sum (PyFloat <$> filter (λ x, float_truthy x = true) (r3 <$> result)))
          (length result));
     ("total_movements",
        py_sum (PyInt <$> filter (λ n, n ≠ 0%Z) (r4 <$> result)));
     ("total_errors",
        py_sum (PyInt <$> filter (λ n, n ≠ 0%Z) (r5 <$> result)))].

Definition report_data (e : env) (u : user) (start_date end_date : string)
    (result : list row) : pyval :=
  PyDict
    [("user_id", u_user_id u);
     ("username", u_username u);
     ("generated_at", PyStr (generated_at e));
     ("period", PyDict [("start", PyStr start_date); ("end", PyStr end_date)]);
     ("summary", summary result);
     ("daily_data", PyList (daily <$> result))].

Definition no_data : string :=
  "No data available for the requested period. Data may not have been processed yet by ETL.".

(** The state of a request: the objects of the bucket, and the queries
    sent to ClickHouse (user name, start, end). *)
Record world := {
  objects : gmap string pyval;
  queries : list (pyval * string * string)
}.

(** [GET /reports] *)
Definition get_user_report (e : env) (u : user)
    (start_date end_date : option string) (w : world)
    : outcome ReportResponse * world :=
  let user_id := u_user_id u in
  let username := u_username u in
  let end_date := default (today e) (truthy end_date) in
  let start_date := default (month_ago e) (truthy start_date) in
  let report_key := get_report_s3_key user_id end_date in
  let cdn_url := cdn_base_url settings +:+ "/" +:+ report_key in
  let cached :=
    if head_answers e
    then _ ← objects w !! report_key;
         new_ReportResponse user_id username end_date (Some cdn_url) None
                            (Some "Report retrieved from cache")
    else None in
  match cached with
  | Some response => (Returned response, w)
  | None =>
      let asked :=
        {| objects := objects w;
           queries := queries w ++ [(username, start_date, end_date)] |} in
      let failed text w' :=
        (Raised (HTTPException 500 ("Failed to generate report: " +:+ text)),
         w') in
      match clickhouse e username start_date end_date with
      | inl text => failed text asked
      | inr [] =>
          match new_ReportResponse user_id username end_date None None
                                   (Some no_data) with
          | Some response => (Returned response, asked)
          | None => failed validation_error asked
          end
      | inr result =>
          let d := report_data e u start_date end_date result in
          let stored :=
            if put_answers e
            then {| objects := <[report_key := d]> (objects asked);
                    queries := queries asked |}
            else asked in
          match new_ReportResponse user_id username end_date (Some cdn_url)
                                   (Some d)
                                   (Some "Report generated successfully") with
          | Some response => (Returned response, stored)
          | None => failed validation_error stored
          end
      end
  end.

(** [GET /reports/{target_user_id}] *)
Definition get_report_by_user_id (e : env) (target_user_id : string)
    (u : user) (w : world) : outcome ReportResponse * world :=
  match u_user_id u with
  | PyStr i =>
      if decide (i = target_user_id)
      then get_user_report e u None None w
      else (Raised (HTTPException 403
              "Access denied. You can only access your own reports."), w)
  | _ =>
      (Raised (HTTPException 403
         "Access denied. You can only access your own reports."), w)
  end.

Definition access_denied : exn :=
  HTTPException 403 "Access denied. You can only access your own reports.".

Definition cdn_url (user_id : pyval) (end_date : string) : string :=
  cdn_base_url settings +:+ "/" +:+ get_report_s3_key user_id end_date.

(** With every other input the same, the bucket refusing the write
    changes what is stored and nothing of the answer. *)
Definition with_put (e : env) (b : bool) : env :=
  {| today := today e; month_ago := month_ago e;
     generated_at := generated_at e; head_answers := head_answers e;
     put_answers := b; clickhouse := clickhouse e |}.

(** A string without a slash. *)
Fixpoint no_slash (s : string) : Prop :=
  match s with
  | "" => True
  | String c s => c ≠ "/"%char ∧ no_slash s
  end.

End Service.

(** A small deployment of the reports service: integers stand in for
    floats, and one token decodes. *)
Module Demo.

#[local] Instance demo_floats : Floats := {|
  float := Z;
  float_truthy := λ x, negb (x =? 0)%Z;
  float_of_int := λ n, n;
  float_add := Z.add;
  float_div := Z.div
|}.

Definition demo_str (v : pyval) : string :=
  match v with
  | PyStr s => s
  | PyNone => "None"
  | _ => "?"
  end.

Definition alice_claims : list (string * pyval) :=
  [("sub", PyStr "u1"); ("preferred_username", PyStr "alice");
   ("email", PyStr "alice@example.com");
   ("realm_access", PyDict [("roles", PyList [PyStr "user"])])].

Definition demo_claims (token : pyval) : string + list (string * pyval) :=
  match token with
  | PyStr "token-alice" => inr alice_claims
  | _ => inl "Error decoding token headers."
  end.

Definition runtime : Runtime := {|
  settings := default_settings;
  floats := demo_floats;
  py_str := demo_str;
  py_str_str := λ _, eq_refl;
  get_unverified_claims := demo_claims;
  validation_error := "validation error"
|}.

Definition alice : @user (@floats runtime) :=
  {| u_user_id := PyStr "u1"; u_username := PyStr "alice";
     u_email := PyStr "alice@example.com";
     u_roles := PyList [PyStr "user"] |}.

Definition nobody : @user (@floats runtime) :=
  {| u_user_id := PyNone; u_username := PyNone;
     u_email := PyNone; u_roles := PyList [] |}.

Definition day1 : @row (@floats runtime) :=
  {| r0 := "u1"; r1 := "2024-05-01"; r2 := 3%Z; r3 := 80%Z;
     r4 := 120; r5 := 0; r6 := "2024-05-01 23:00:00" |}.

Definition day2 : @row (@floats runtime) :=
  {| r0 := "u1"; r1 := "2024-05-02"; r2 := 0%Z; r3 := 70%Z;
     r4 := 0; r5 := 2; r6 := "2024-05-02 23:00:00" |}.

Definition rows_env (rows : list (@row (@floats runtime)))
    : @env (@floats runtime) :=
  {| today := "2024-05-02"; month_ago := "2024-04-02";
     generated_at := "2024-05-02T10:00:00";
     head_answers := true; put_answers := true;
     clickhouse := λ _ _ _, inr rows |}.

Definition empty_world : @world runtime :=
  {| objects := ∅; queries := [] |}.

End Demo.

End Reports.

(** ** Notions the theorems are stated with *)

Section Notions.
Context `{!Runtime}.

(** What the refresh call can come back with when it does not succeed:
    no answer at all, or an answer that is not a 200. *)
Definition refresh_fails (r : http_result) : Prop :=
  r = HttpFailure ∨ ∃ st b, r = HttpResponse st b ∧ st ≠ 200%Z.

(** The record a successful refresh leaves: both tokens and the deadline
    are replaced, the rest is kept. *)
Definition refreshed (s s' : session) : Prop :=
  encrypted s' ∧ created_at s' = created_at s ∧ user_info s' = user_info s.

(** The session survives the request: the claim of C1 for a provider
    that cannot be reached. *)
Definition session_kept {A} (kc : provider) (p : prog A) (w : world) : Prop :=
  store (run kc p w).2 = store w.

(** The request ends in a 401 and the record is gone: what C5 says
    happens to a session whose token does not decrypt. *)
Definition session_dropped {A} (kc : provider) (p : prog A) (sid : string)
    (w : world) : Prop :=
  (∃ detail, (run kc p w).1 = Raised (HTTPException 401 detail))
  ∧ sessions (store (run kc p w).2) !! sid = None.

(** The form [get_keycloak_token] posts. *)
Definition exchange_request (code code_verifier : string) : http_request :=
  {| url := token_url;
     data := with_client_secret
       [("grant_type", "authorization_code");
        ("client_id", keycloak_client_id settings);
        ("code", code);
        ("redirect_uri", redirect_uri);
        ("code_verifier", code_verifier)] |}.


(** [redis_client.get(f"pkce:{state}")] is falsy. *)
Definition unbound (st : string) (r : redis) : Prop :=
  truthy (snd <$> pkce r !! st) = None.





(** The record under [sid], if there is one, was created at [c]. *)
Definition created (c : Z) (sid : string) (w : world) : Prop :=
  ∀ ttl s, sessions (store w) !! sid = Some (ttl, s) → created_at s = c.

End Notions.

(** * Proofs *)

Section Proofs.
Context `{!Runtime}.

Ltac open_prog :=
  unfold login, callback, logout, get_session_info, validate_session, health,
    get_keycloak_token, refresh_access_token, client_post, assign_new_tokens,
    store_session, get_session, delete_session, redis_do,
    decrypt_token, response_json, subscript, encode, add_number in *.

Ltac walk :=
  repeat (first [ progress cbn in * | progress simplify_eq
                | split | intro | case_match | done ]).

(** ** Running composed programs *)

Lemma run_bind {A B} kc (p : prog A) (f : A → prog B) w :
  run kc (p ≫= f) w =
  match run kc p w with
  | (Returned a, w') => run kc (f a) w'
  | (Raised e, w') => (Raised e, w')
  end.
Proof.
  revert w. induction p as [a|e|X c k IH|c k IH]; intros w; cbn; try done.
  all: try destruct (redis_exec c (store w)) as [x r]; apply IH.
Qed.

Lemma run_try_except {A} kc (p : prog A) h w :
  run kc (try_except p h) w =
  match run kc p w with
  | (Returned a, w') => (Returned a, w')
  | (Raised e, w') => run kc (h e) w'
  end.
Proof.
  revert w. induction p as [a|e|X c k IH|c k IH]; intros w; cbn; try done.
  all: try destruct (redis_exec c (store w)) as [x r]; apply IH.
Qed.

Lemma geb_expired (now deadline : Z) :
  (deadline ≤ now)%Z → (now >=? deadline)%Z = true.
Proof. intros. rewrite Z.geb_leb. by apply Z.leb_le. Qed.

Lemma geb_fresh (now deadline : Z) :
  (now < deadline)%Z → (now >=? deadline)%Z = false.
Proof. intros. rewrite Z.geb_leb. by apply Z.leb_gt. Qed.

(** ** The refresh check fails: every failure deletes the session *)

Lemma session_info_refresh_fails kc request w sid ttl s now token rt :
  carries request sid →
  sessions (store w) !! sid = Some (ttl, s) →
  (access_token_expires_at s ≤ now)%Z →
  fernet_decrypt get_fernet (refresh_token s) = Some rt →
  refresh_fails (kc (upstream w) (refresh_request rt)) →
  run kc (get_session_info request now token) w =
    (Raised (HTTPException 401 "Session expired"),
     {| store := {| sessions := delete sid (sessions (store w));
                    pkce := pkce (store w) |};
        upstream := upstream w ++ [refresh_request rt] |}).
Proof.
  intros Hc Hs Hexp Hd Hf. unfold carries in Hc. open_prog.
  rewrite Hc. cbn. rewrite Hs. cbn. rewrite (geb_expired _ _ Hexp), Hd. cbn.
  unfold refresh_fails, refresh_request in *.
  destruct Hf as [->|(st & b & -> & Hst)]; cbn; [done|].
  by destruct (decide (st ≠ 200%Z)).
Qed.

Lemma validate_refresh_fails kc request w sid ttl s now rt :
  carries request sid →
  sessions (store w) !! sid = Some (ttl, s) →
  (access_token_expires_at s ≤ now)%Z →
  fernet_decrypt get_fernet (refresh_token s) = Some rt →
  refresh_fails (kc (upstream w) (refresh_request rt)) →
  run kc (validate_session request now) w =
    (Raised (HTTPException 401 "Session expired"),
     {| store := {| sessions := delete sid (sessions (store w));
                    pkce := pkce (store w) |};
        upstream := upstream w ++ [refresh_request rt] |}).
Proof.
  intros Hc Hs Hexp Hd Hf. unfold carries in Hc. open_prog.
  rewrite Hc. cbn. rewrite Hs. cbn. rewrite (geb_expired _ _ Hexp), Hd. cbn.
  unfold refresh_fails, refresh_request in *.
  destruct Hf as [->|(st & b & -> & Hst)]; cbn; [done|].
  by destruct (decide (st ≠ 200%Z)).
Qed.

(** ** Validate *)

Lemma validate_returned kc request w sid now resp w' :
  carries request sid →
  run kc (validate_session request now) w = (Returned resp, w') →
  ∃ ttl s s' token,
    sessions (store w) !! sid = Some (ttl, s)
    ∧ ((now < access_token_expires_at s)%Z ∧ s' = s ∧ w' = w
       ∨ (access_token_expires_at s ≤ now)%Z ∧ refreshed s s'
         ∧ sessions (store w') =
             <[sid := (session_ttl settings, s')]> (sessions (store w))
         ∧ pkce (store w') = pkce (store w))
    ∧ fernet_decrypt get_fernet (access_token s') = Some token
    ∧ resp = validate_response token.
Proof.
  intros Hc Hrun. unfold carries in Hc. open_prog. rewrite Hc in Hrun.
  cbn in Hrun.
  destruct (sessions (store w) !! sid) as [[ttl s]|] eqn:Hs; [|done].
  cbn in Hrun.
  destruct (now >=? access_token_expires_at s)%Z eqn:Hnow.
  - rewrite Z.geb_leb in Hnow. apply Z.leb_le in Hnow.
    walk.
    all: eexists _, _, _, _; split; [done|]; split;
      [right; split; [done|]; split; [|by split];
       split; [by eexists _, _|done]
      |done].
  - rewrite Z.geb_leb in Hnow. apply Z.leb_gt in Hnow.
    walk. eexists _, _, _, _. split; [done|]. split; [|done].
    left. by destruct w.
Qed.

(** Before the deadline Validate touches neither the provider nor the
    store, whatever it goes on to return. *)
Lemma validate_fresh kc request w sid ttl s now :
  carries request sid →
  sessions (store w) !! sid = Some (ttl, s) →
  (now < access_token_expires_at s)%Z →
  run kc (validate_session request now) w =
    (match fernet_decrypt get_fernet (access_token s) with
     | Some token => Returned (validate_response token)
     | None => Raised InvalidToken
     end, w).
Proof.
  intros Hc Hs Hnow. unfold carries in Hc. open_prog.
  rewrite Hc. cbn. rewrite Hs. cbn. rewrite (geb_fresh _ _ Hnow). cbn.
  destruct w. by destruct (fernet_decrypt _ _).
Qed.

(** Past the deadline Validate posts the refresh form exactly once. *)
Lemma validate_expired_calls kc request w sid ttl s now rt :
  carries request sid →
  sessions (store w) !! sid = Some (ttl, s) →
  (access_token_expires_at s ≤ now)%Z →
  fernet_decrypt get_fernet (refresh_token s) = Some rt →
  upstream (run kc (validate_session request now) w).2 =
    upstream w ++ [refresh_request rt].
Proof.
  intros Hc Hs Hexp Hd. unfold carries in Hc. open_prog.
  rewrite Hc. cbn. rewrite Hs. cbn. rewrite (geb_expired _ _ Hexp), Hd. cbn.
  unfold refresh_request. walk.
Qed.


(** ** Session-Info *)

Lemma session_info_returned kc request w sid now token resp w' :
  carries request sid →
  run kc (get_session_info request now token) w = (Returned resp, w') →
  ∃ ttl s s',
    sessions (store w) !! sid = Some (ttl, s)
    ∧ ((now < access_token_expires_at s)%Z ∧ s' = s
         ∧ upstream w' = upstream w
       ∨ (access_token_expires_at s ≤ now)%Z ∧ refreshed s s')
    ∧ sessions (store w') =
        <[token := (session_ttl settings, s')]>
          (delete sid (sessions (store w)))
    ∧ pkce (store w') = pkce (store w)
    ∧ resp = session_response (created_at s) token.
Proof.
  intros Hc Hrun. unfold carries in Hc. open_prog. rewrite Hc in Hrun.
  cbn in Hrun.
  destruct (sessions (store w) !! sid) as [[ttl s]|] eqn:Hs; [|done].
  cbn in Hrun.
  destruct (now >=? access_token_expires_at s)%Z eqn:Hnow.
  - rewrite Z.geb_leb in Hnow. apply Z.leb_le in Hnow.
    walk.
    all: eexists _, _, _; split; [done|]; split; [|done];
      right; split; [done|]; split; [by eexists _, _|done].
  - rewrite Z.geb_leb in Hnow. apply Z.leb_gt in Hnow.
    walk. eexists _, _, _. split; [done|]. split; [|done]. by left.
Qed.

Lemma session_info_fresh kc request w sid ttl s now token :
  carries request sid →
  sessions (store w) !! sid = Some (ttl, s) →
  (now < access_token_expires_at s)%Z →
  run kc (get_session_info request now token) w =
    (Returned (session_response (created_at s) token),
     {| store :=
          {| sessions := <[token := (session_ttl settings, s)]>
                           (delete sid (sessions (store w)));
             pkce := pkce (store w) |};
        upstream := upstream w |}).
Proof.
  intros Hc Hs Hnow. unfold carries in Hc. open_prog.
  rewrite Hc. cbn. rewrite Hs. cbn. by rewrite (geb_fresh _ _ Hnow).
Qed.

Lemma session_info_expired_calls kc request w sid ttl s now token rt :
  carries request sid →
  sessions (store w) !! sid = Some (ttl, s) →
  (access_token_expires_at s ≤ now)%Z →
  fernet_decrypt get_fernet (refresh_token s) = Some rt →
  upstream (run kc (get_session_info request now token) w).2 =
    upstream w ++ [refresh_request rt].
Proof.
  intros Hc Hs Hexp Hd. unfold carries in Hc. open_prog.
  rewrite Hc. cbn. rewrite Hs. cbn. rewrite (geb_expired _ _ Hexp), Hd. cbn.
  unfold refresh_request. walk.
Qed.

(** ** What the handlers write, in any interleaving *)

Lemma writes_exec {A X} P (c : redis_cmd X) (k : X → prog A) r :
  writes P (Redis c k) → holds P r →
  writes P (k (redis_exec c r).1) ∧ holds P (redis_exec c r).2.
Proof.
  intros Hw Hr. destruct c; cbn in *.
  - split; [|done].
    destruct (sessions r !! session_id) as [[ttl s]|] eqn:E; cbn.
    + apply Hw. eapply Hr, E.
    + apply Hw.
  - destruct Hw as [Hd Hk]. split; [done|]. intros sid ttl' s. cbn.
    rewrite lookup_insert. case_decide; [naive_solver|apply Hr].
  - split; [done|]. intros sid ttl' s. cbn. rewrite lookup_delete.
    case_decide; [done|apply Hr].
  - split; [apply Hw|done].
  - by split.
  - by split.
Qed.

Lemma writes_run {A} P kc (p : prog A) w :
  writes P p → holds P (store w) → holds P (store (run kc p w).2).
Proof.
  revert w. induction p as [a|e|X c k IH|c k IH]; intros w Hw Hr; cbn; auto.
  destruct (writes_exec P c k (store w) Hw Hr) as [Hk Hs].
  destruct (redis_exec c (store w)) as [x r]. by apply IH.
Qed.

Lemma writes_advance {A} P (p : prog A) r :
  writes P p → holds P r →
  writes P (advance p r).1 ∧ holds P (advance p r).2.
Proof.
  revert r. induction p as [a|e|X c k IH|c k IH]; intros r Hw Hr; cbn; auto.
  destruct (writes_exec P c k r Hw Hr) as [Hk Hs].
  destruct (redis_exec c r) as [x r']. by apply IH.
Qed.

Lemma writes_resume P kc (p : prog Response) w :
  writes P p → holds P (store w) →
  writes P (resume kc p w).1 ∧ holds P (store (resume kc p w).2).
Proof.
  intros Hw Hr. unfold resume. destruct p as [a|e|X c k|c k].
  1-3: match goal with
       | |- context [advance ?q ?r] =>
           destruct (writes_advance P q r Hw Hr);
           by destruct (advance q r)
       end.
  specialize (Hw (kc (upstream w) c)).
  destruct (writes_advance P _ _ Hw Hr).
  by destruct (advance _ _).
Qed.

Lemma handler_writes (p : prog Response) : handler p → writes encrypted p.
Proof.
  destruct 1; open_prog; walk; try by (eexists _, _).
Qed.

(** The invariant of the running service: the store holds encrypted
    tokens only, and so does everything a pending task will write. *)
Lemma reachable_encrypted kc sv :
  reachable kc sv →
  store_encrypted (store (state sv)) ∧ Forall (writes encrypted) (tasks sv).
Proof.
  induction 1 as [|sv p _ [IHs IHt] Hp|sv i _ [IHs IHt]
                 |sv sid _ [IHs IHt]|sv st _ [IHs IHt]]; cbn.
  - split; [|done]. intros sid ttl s. cbn. by rewrite lookup_empty.
  - split; [done|]. apply Forall_app. split; [done|].
    constructor; [by apply handler_writes|done].
  - unfold sched_step. destruct (tasks sv !! i) as [p|] eqn:Hi; [|done].
    assert (writes encrypted p) as Hp by (by eapply Forall_lookup_1).
    destruct (writes_resume encrypted kc p (state sv) Hp IHs) as [Hp' Hs'].
    destruct (resume kc p (state sv)) as [p' w']. cbn in *.
    split; [done|]. by apply Forall_insert.
  - split; [|done]. intros sid' ttl s. unfold expire_session. cbn.
    rewrite lookup_delete. case_decide; [done|apply IHs].
  - done.
Qed.

(** ** What the handlers can return, in any interleaving *)

Lemma returns_run {A} (Q : A → Prop) kc (p : prog A) w a w' :
  returns Q p → run kc p w = (Returned a, w') → Q a.
Proof.
  revert w. induction p as [b|e|X c k IH|c k IH]; intros w Hq Hrun;
    cbn in *; simplify_eq; auto.
  - destruct (redis_exec c (store w)) as [x r]. by eapply IH.
  - by eapply IH.
Qed.

Lemma returns_advance {A} (Q : A → Prop) (p : prog A) r :
  returns Q p → returns Q (advance p r).1.
Proof.
  revert r. induction p as [b|e|X c k IH|c k IH]; intros r Hq; cbn in *; auto.
  destruct (redis_exec c r) as [x r']. by apply IH.
Qed.

Lemma login_returns request v st :
  returns (λ resp, resp = login_response st v) (login request v st).
Proof. open_prog; walk. Qed.

Lemma callback_returns request code st sid t1 t2 :
  returns (λ resp, resp = callback_response sid)
          (callback request code st sid t1 t2).
Proof. open_prog; walk. Qed.

Lemma logout_returns request :
  returns (λ resp, resp = logout_response) (logout request).
Proof. open_prog; walk. Qed.

Lemma session_info_returns request now token :
  returns (λ resp, ∃ created, resp = session_response created token)
          (get_session_info request now token).
Proof. open_prog; walk; by eexists. Qed.

Lemma health_returns :
  returns (λ resp, resp = JSONResponse {[ "status" := JStr "healthy" ]} [])
          health.
Proof. done. Qed.

Lemma reachable_schedule kc order sv :
  reachable kc sv → reachable kc (schedule kc order sv).
Proof.
  revert sv. induction order as [|i order IH]; intros sv Hsv; [done|].
  cbn. apply IH. by apply reach_sched.
Qed.

(** ** The refresh check at the deadline *)

(** C4: in every state the service can reach, a request whose session is
    still before its deadline makes no call to the provider and finds
    the record as it is stored (Validate leaves the store alone,
    Session-Info stores the same record under the new identifier); at
    the deadline or after it, both operations post the refresh form for
    the stored refresh token, exactly once. *)
Theorem ensure_fresh_boundary kc sv request sid ttl s now token :
  reachable kc sv →
  carries request sid →
  sessions (store (state sv)) !! sid = Some (ttl, s) →
  let w := state sv in
  let info := (run kc (get_session_info request now token) w).2 in
  let valid := (run kc (validate_session request now) w).2 in
  ((now < access_token_expires_at s)%Z →
     upstream info = upstream w
     ∧ sessions (store info) !! token = Some (session_ttl settings, s)
     ∧ valid = w)
  ∧ ((access_token_expires_at s ≤ now)%Z →
     ∃ rt, fernet_decrypt get_fernet (refresh_token s) = Some rt
       ∧ upstream info = upstream w ++ [refresh_request rt]
       ∧ upstream valid = upstream w ++ [refresh_request rt]).
Proof.
  intros Hreach Hc Hs w info valid. split; intros Hnow.
  - subst info valid.
    rewrite (session_info_fresh _ _ _ _ _ _ _ _ Hc Hs Hnow).
    rewrite (validate_fresh _ _ _ _ _ _ _ Hc Hs Hnow). cbn.
    by rewrite lookup_insert_eq.
  - destruct (reachable_encrypted _ _ Hreach) as [Henc _].
    destruct (Henc _ _ _ Hs) as (a & r & _ & Hr).
    exists r. assert (fernet_decrypt get_fernet (refresh_token s) = Some r)
      as Hd by (rewrite Hr; apply fernet_decrypt_encrypt).
    split; [done|]. split.
    + by eapply session_info_expired_calls.
    + by eapply validate_expired_calls.
Qed.

(** ** Failures of the refresh *)

(** C1 (amended): when the access token has expired and the refresh call
    fails, be it by a connection failure or timeout or by an answer that
    is not a 200, both Session-Info and Validate delete the session
    record and raise 401 "Session expired"; the call is made once and
    not repeated. *)
Theorem refresh_failure_deletes_session kc request w sid ttl s now token rt :
  carries request sid →
  sessions (store w) !! sid = Some (ttl, s) →
  (access_token_expires_at s ≤ now)%Z →
  fernet_decrypt get_fernet (refresh_token s) = Some rt →
  refresh_fails (kc (upstream w) (refresh_request rt)) →
  let w' := {| store := {| sessions := delete sid (sessions (store w));
                           pkce := pkce (store w) |};
               upstream := upstream w ++ [refresh_request rt] |} in
  run kc (get_session_info request now token) w =
    (Raised (HTTPException 401 "Session expired"), w')
  ∧ run kc (validate_session request now) w =
    (Raised (HTTPException 401 "Session expired"), w').
Proof.
  intros. split.
  - by eapply session_info_refresh_fails.
  - by eapply validate_refresh_fails.
Qed.

(** C5 (amended): when the access token has expired and the stored
    refresh token does not decrypt, Session-Info and Validate delete the
    session record and raise 401, without calling the provider. *)
Theorem corrupt_refresh_token_drops_session kc request w sid ttl s now token :
  carries request sid →
  sessions (store w) !! sid = Some (ttl, s) →
  (access_token_expires_at s ≤ now)%Z →
  fernet_decrypt get_fernet (refresh_token s) = None →
  session_dropped kc (get_session_info request now token) sid w
  ∧ session_dropped kc (validate_session request now) sid w
  ∧ upstream (run kc (get_session_info request now token) w).2 = upstream w
  ∧ upstream (run kc (validate_session request now) w).2 = upstream w.
Proof.
  intros Hc Hs Hexp Hd. unfold carries, session_dropped in *. open_prog.
  rewrite Hc. cbn. rewrite Hs. cbn. rewrite (geb_expired _ _ Hexp), Hd. cbn.
  rewrite lookup_delete_eq. eauto 10.
Qed.

(** ** Session-Info rotates the identifier *)

(** C7: when Session-Info succeeds with a new identifier that differs
    from the one presented, the old identifier no longer resolves, the
    new one resolves to the record (the stored one, or the refreshed one
    with the same creation time and user info), the cookie is set to the
    new identifier, and the body is the authenticated flag and the
    validity deadline. *)
Theorem session_info_rotates kc request w sid now token resp w' :
  carries request sid →
  token ≠ sid →
  run kc (get_session_info request now token) w = (Returned resp, w') →
  ∃ ttl s s',
    sessions (store w) !! sid = Some (ttl, s)
    ∧ sessions (store w') !! sid = None
    ∧ sessions (store w') !! token = Some (session_ttl settings, s')
    ∧ ((now < access_token_expires_at s)%Z ∧ s' = s
       ∨ (access_token_expires_at s ≤ now)%Z ∧ refreshed s s')
    ∧ resp = JSONResponse
        {[ "authenticated" := JBool true;
           "session_valid_until" :=
             JStr (isoformat (created_at s + session_ttl settings)) ]}
        [SetCookie (session_cookie_name settings) token true true "lax"
                   (session_ttl settings)].
Proof.
  intros Hc Hne Hrun.
  destruct (session_info_returned _ _ _ _ _ _ _ _ Hc Hrun)
    as (ttl & s & s' & Hs & Hcase & Hst & _ & ->).
  exists ttl, s, s'. rewrite Hst.
  rewrite lookup_insert_ne, lookup_delete_eq, lookup_insert_eq by done.
  repeat split; try done.
  destruct Hcase as [(? & ? & _)|?]; [by left|by right].
Qed.

(** ** Validate *)

(** C8: when Validate succeeds, the set of session identifiers in the
    store is the one it found; the record under the presented identifier
    is the stored one (before the deadline, nothing is written) or the
    refreshed one, written under that same identifier; the body is the
    decrypted access token of that record.  No other handler can return
    a response that depends on a token: each returns the response built
    from its identifiers and settings. *)
Theorem validate_keeps_identifier kc request w sid now resp w' :
  carries request sid →
  run kc (validate_session request now) w = (Returned resp, w') →
  (∃ ttl s s' token,
    sessions (store w) !! sid = Some (ttl, s)
    ∧ dom (sessions (store w')) = dom (sessions (store w))
    ∧ ((now < access_token_expires_at s)%Z ∧ s' = s ∧ w' = w
       ∨ (access_token_expires_at s ≤ now)%Z ∧ refreshed s s'
         ∧ sessions (store w') !! sid = Some (session_ttl settings, s'))
    ∧ fernet_decrypt get_fernet (access_token s') = Some token
    ∧ resp = JSONResponse {[ "access_token" := JStr token ]} [])
  ∧ (∀ rq v st, returns (λ r, r = login_response st v) (login rq v st))
  ∧ (∀ rq code st id t1 t2,
       returns (λ r, r = callback_response id) (callback rq code st id t1 t2))
  ∧ (∀ rq, returns (λ r, r = logout_response) (logout rq))
  ∧ (∀ rq t id,
       returns (λ r, ∃ created, r = session_response created id)
               (get_session_info rq t id))
  ∧ returns (λ r, r = JSONResponse {[ "status" := JStr "healthy" ]} []) health.
Proof.
  intros Hc Hrun. split.
  - destruct (validate_returned _ _ _ _ _ _ _ Hc Hrun)
      as (ttl & s & s' & tok & Hs & Hcase & Hd & ->).
    exists ttl, s, s', tok. split; [done|].
    destruct Hcase as [(? & -> & ->)|(? & ? & Hst & ?)].
    + repeat split; try done. by left.
    + rewrite Hst. repeat split; try done.
      * rewrite dom_insert_L. apply elem_of_dom_2 in Hs.
        apply set_eq. intros x. rewrite elem_of_union, elem_of_singleton.
        split; [by intros [->|?]|by right].
      * right. by rewrite lookup_insert_eq.
  - auto using login_returns, callback_returns, logout_returns,
      session_info_returns, health_returns.
Qed.

(** ** Logout *)

(** C9: Logout of a request that carries a session cookie always returns
    the redirect that clears the cookie, and leaves the store without
    the session, whatever the provider does with the revoke call
    (accepts, rejects, cannot be reached) and whether or not the stored
    refresh token decrypts. *)
Theorem logout_unconditional kc request w sid :
  carries request sid →
  ∃ w', run kc (logout request) w =
          (Returned (RedirectResponse (frontend_url settings)
                       [DeleteCookie (session_cookie_name settings)]), w')
    ∧ sessions (store w') = delete sid (sessions (store w))
    ∧ sessions (store w') !! sid = None
    ∧ pkce (store w') = pkce (store w).
Proof.
  intros Hc. unfold carries in Hc. open_prog. rewrite Hc. cbn.
  destruct (sessions (store w) !! sid) as [[ttl s]|] eqn:Hs; cbn.
  - destruct (fernet_decrypt _ _) as [t|]; cbn.
    + destruct (kc _ _); cbn; eexists; (split; [reflexivity|]); cbn;
        by rewrite lookup_delete_eq.
    + eexists; (split; [reflexivity|]); cbn; by rewrite lookup_delete_eq.
  - eexists; (split; [reflexivity|]); cbn; by rewrite lookup_delete_eq.
Qed.

(** ** Callback and the PKCE binding *)


Lemma callback_unbound kc request w code st sid t1 t2 :
  unbound st (store w) →
  run kc (callback request code st sid t1 t2) w =
    (Raised (HTTPException 400 "Invalid or expired state"), w).
Proof.
  unfold unbound. intros Hu. open_prog. cbn. rewrite Hu. by destruct w.
Qed.














(** ** Tokens at rest and on the wire *)

(** C6: in every state the service can reach, whatever requests are in
    flight and however they were interleaved, each session record in the
    store holds Fernet ciphertexts in place of the two tokens, and so
    does every record a pending request will write; and the responses of
    login, callback, logout and session info are built from the
    settings, the PKCE state and challenge, the session identifier and
    the creation time: the cookie carries the session identifier, the
    body of session info the flag and the deadline. *)
Theorem tokens_stay_encrypted kc sv :
  reachable kc sv →
  store_encrypted (store (state sv))
  ∧ Forall (writes encrypted) (tasks sv)
  ∧ (∀ rq v st, returns (λ r, r = login_response st v) (login rq v st))
  ∧ (∀ rq code st id t1 t2,
       returns (λ r, r = callback_response id) (callback rq code st id t1 t2))
  ∧ (∀ rq, returns (λ r, r = logout_response) (logout rq))
  ∧ (∀ rq t id,
       returns (λ r, ∃ created, r = session_response created id)
               (get_session_info rq t id)).
Proof.
  intros Hreach. destruct (reachable_encrypted _ _ Hreach) as [? ?].
  repeat split; try done;
    auto using login_returns, callback_returns, logout_returns,
      session_info_returns.
Qed.

(** ** One refresh for requests served in turn *)



(** ** The creation time of a session *)

Lemma callback_returned kc request w code st sid t1 t2 resp w' :
  run kc (callback request code st sid t1 t2) w = (Returned resp, w') →
  ∃ s, sessions (store w') =
         <[sid := (session_ttl settings, s)]> (sessions (store w))
       ∧ created_at s = t2
       ∧ user_info s = None
       ∧ pkce (store w') = delete st (pkce (store w))
       ∧ resp = callback_response sid.
Proof.
  intros Hrun. open_prog. walk; by eexists.
Qed.

Lemma cookie_request_lookup sid :
  truthy (get_session_id_from_request (cookie_request sid))
  = if decide (sid = "") then None else Some sid.
Proof.
  unfold get_session_id_from_request, cookie_request. cbn.
  by rewrite lookup_singleton_eq.
Qed.

Lemma created_delete c sid w r u :
  sessions r = delete sid (sessions (store w)) →
  created c sid {| store := r; upstream := u |}.
Proof. intros Hr ttl s. cbn. by rewrite Hr, lookup_delete_eq. Qed.

Lemma validate_keeps_created kc sid now w c :
  created c sid w →
  created c sid (run kc (validate_session (cookie_request sid) now) w).2
  ∧ ∀ resp,
      (run kc (validate_session (cookie_request sid) now) w).1 = Returned resp →
      ∃ token, resp = validate_response token.
Proof.
  intros Hw. open_prog. rewrite cookie_request_lookup.
  destruct (decide (sid = "")) as [?|Hne]; [by destruct w|]. cbn.
  destruct (sessions (store w) !! sid) as [[ttl s]|] eqn:Hs;
    [|by destruct w].
  pose proof (Hw _ _ Hs) as Hc. cbn.
  destruct (now >=? access_token_expires_at s)%Z; cbn.
  - walk; try (by eexists).
    all: match goal with
         | Hl : delete _ _ !! _ = Some _ |- _ =>
             by rewrite lookup_delete_eq in Hl
         | Hl : <[_ := _]> _ !! _ = Some _ |- _ =>
             rewrite lookup_insert_eq in Hl; by simplify_eq
         end.
  - walk; by eexists.
Qed.

Lemma session_info_keeps_created kc sid now token w c :
  created c sid w →
  match run kc (get_session_info (cookie_request sid) now token) w with
  | (Returned resp, w') =>
      created c token w' ∧ resp = session_response c token
  | (Raised _, w') => created c sid w'
  end.
Proof.
  intros Hw. open_prog. rewrite cookie_request_lookup.
  destruct (decide (sid = "")) as [?|Hne]; [by destruct w|]. cbn.
  destruct (sessions (store w) !! sid) as [[ttl s]|] eqn:Hs;
    [|by destruct w].
  pose proof (Hw _ _ Hs) as Hc. cbn. subst c.
  destruct (now >=? access_token_expires_at s)%Z; cbn.
  - walk.
    all: match goal with
         | Hl : delete _ _ !! _ = Some _ |- _ =>
             by rewrite lookup_delete_eq in Hl
         | Hl : <[_ := _]> _ !! _ = Some _ |- _ =>
             rewrite lookup_insert_eq in Hl; by simplify_eq
         end.
  - split; [|done].
    intros ttl' s'; cbn; rewrite lookup_insert_eq; by intros [= <- <-].
Qed.

Lemma browse_keeps_created kc vs sid w c :
  created c sid w →
  created c (browse kc vs sid w).2.1 (browse kc vs sid w).2.2
  ∧ ∀ resp, Returned resp ∈ (browse kc vs sid w).1 →
      (∃ token, resp = validate_response token)
      ∨ (∃ id, resp = session_response c id).
Proof.
  revert sid w. induction vs as [|[now token|now] vs IH]; intros sid w Hw.
  - cbn. split; [done|]. intros resp Hin. by apply elem_of_nil in Hin.
  - cbn [browse].
    pose proof (session_info_keeps_created kc sid now token w c Hw) as Hstep.
    destruct (run kc (get_session_info (cookie_request sid) now token) w)
      as [[resp0|e] w1].
    + destruct Hstep as [Hw1 ->]. destruct (IH token w1 Hw1) as [Hend Hall].
      destruct (browse kc vs token w1) as [os [sid' w']]. cbn in *.
      split; [done|]. intros resp Hin. apply elem_of_cons in Hin.
      destruct Hin as [[= ->]|Hin]; [right; by eexists|by apply Hall].
    + destruct (IH sid w1 Hstep) as [Hend Hall].
      destruct (browse kc vs sid w1) as [os [sid' w']]. cbn in *.
      split; [done|]. intros resp Hin. apply elem_of_cons in Hin.
      destruct Hin as [[=]|Hin]. by apply Hall.
  - cbn [browse].
    destruct (validate_keeps_created kc sid now w c Hw) as [Hw1 Hresp].
    destruct (run kc (validate_session (cookie_request sid) now) w)
      as [o w1]. cbn in *.
    destruct (IH sid w1 Hw1) as [Hend Hall].
    destruct (browse kc vs sid w1) as [os [sid' w']]. cbn in *.
    split; [done|]. intros resp Hin. apply elem_of_cons in Hin.
    destruct Hin as [<-|Hin]; [left; by apply Hresp|by apply Hall].
Qed.

(** C10: the creation time of a session is the clock reading of the
    callback that stored it.  Following a session through any sequence
    of Session-Info and Validate requests, with refreshes and rotations
    as they come, the record the browser's cookie points to keeps that
    creation time, and every Session-Info response reports the same
    deadline, creation time plus session TTL; yet each rotation writes
    the record with the full session TTL again. *)
Theorem created_at_is_fixed kc vs sid w ttl s :
  sessions (store w) !! sid = Some (ttl, s) →
  let out := browse kc vs sid w in
  (∀ ttl' s', sessions (store out.2.2) !! out.2.1 = Some (ttl', s') →
              created_at s' = created_at s)
  ∧ (∀ resp, Returned resp ∈ out.1 →
       (∃ token, resp = JSONResponse {[ "access_token" := JStr token ]} [])
       ∨ (∃ id, resp = JSONResponse
            {[ "authenticated" := JBool true;
               "session_valid_until" :=
                 JStr (isoformat (created_at s + session_ttl settings)) ]}
            [session_cookie id]))
  ∧ (∀ request w0 code st id t1 t2 resp w1,
       run kc (callback request code st id t1 t2) w0 = (Returned resp, w1) →
       ∃ s1, sessions (store w1) !! id = Some (session_ttl settings, s1)
             ∧ created_at s1 = t2)
  ∧ (∀ request w0 id ttl0 s0 now token resp w1,
       carries request id →
       sessions (store w0) !! id = Some (ttl0, s0) →
       run kc (get_session_info request now token) w0 = (Returned resp, w1) →
       ∃ s1, sessions (store w1) !! token = Some (session_ttl settings, s1)
             ∧ created_at s1 = created_at s0
             ∧ user_info s1 = user_info s0).
Proof.
  intros Hs out.
  assert (created (created_at s) sid w) as Hw.
  { intros ttl' s'. rewrite Hs. by intros [= <- <-]. }
  destruct (browse_keeps_created kc vs sid w _ Hw) as [Hend Hall].
  split; [exact Hend|]. split; [exact Hall|]. split.
  - intros request w0 code st id t1 t2 resp w1 Hrun.
    destruct (callback_returned _ _ _ _ _ _ _ _ _ _ Hrun)
      as (s1 & Hst & Hc & _). exists s1. by rewrite Hst, lookup_insert_eq.
  - intros request w0 id ttl0 s0 now token resp w1 Hc Hs0 Hrun.
    destruct (session_info_returned _ _ _ _ _ _ _ _ Hc Hrun)
      as (ttl1 & s1 & s1' & Hs1 & Hcase & Hst & _).
    rewrite Hs0 in Hs1. injection Hs1 as <- <-.
    exists s1'. rewrite Hst, lookup_insert_eq. split; [done|].
    destruct Hcase as [(_ & -> & _)|(_ & _ & ? & ?)]; by split.
Qed.

End Proofs.

(** * The theorems at work on the small deployment *)

Section Checks.
#[local] Existing Instance Demo.runtime.

Lemma server1_reachable : reachable Demo.kc_accept Demo.server1.
Proof.
  apply reachable_schedule.
  apply (reach_request _ {| tasks := [login Demo.no_cookie "verifier0" "st0"];
                            state := initial_world |}); [|apply h_callback].
  apply (reach_request _ {| tasks := []; state := initial_world |});
    [apply reach_start|apply h_login].
Defined.

Lemma server1_session :
  sessions (store (state Demo.server1)) !! "sid0"
  = Some (3600%Z, Demo.record "enc:AT1" "enc:RT1" 1300 1000).
Proof. vm_compute. reflexivity. Defined.

Lemma carries_sid0 : carries (Demo.with_cookie "sid0") "sid0".
Proof. vm_compute. reflexivity. Defined.

Lemma world1_session :
  sessions (store Demo.world1) !! "sid0"
  = Some (3600%Z, Demo.record "enc:AT0" "enc:RT0" 1300 1000).
Proof. vm_compute. reflexivity. Defined.

(** C1, as stated, fails: the provider is down, the token has expired,
    and the session is gone after the request. *)
Lemma timeout_keeps_session_counterexample :
  ¬ session_kept Demo.kc_down
      (validate_session (Demo.with_cookie "sid0") 2000) Demo.world1
  ∧ ¬ session_kept Demo.kc_down
      (get_session_info (Demo.with_cookie "sid0") 2000 "sid1") Demo.world1.
Proof.
  unfold session_kept. split; intros Hk;
    apply (f_equal (λ r, sessions r !! "sid0")) in Hk;
    vm_compute in Hk; discriminate.
Qed.

Lemma refresh_failure_deletes_session_witness :
  ∃ w', run Demo.kc_down
          (get_session_info (Demo.with_cookie "sid0") 2000 "sid1") Demo.world1
        = (Raised (HTTPException 401 "Session expired"), w')
      ∧ run Demo.kc_down
          (validate_session (Demo.with_cookie "sid0") 2000) Demo.world1
        = (Raised (HTTPException 401 "Session expired"), w')
      ∧ sessions (store w') !! "sid0" = None.
Proof.
  destruct (refresh_failure_deletes_session Demo.kc_down
              (Demo.with_cookie "sid0") Demo.world1 "sid0" 3600%Z
              (Demo.record "enc:AT0" "enc:RT0" 1300 1000) 2000 "sid1" "RT0"
              carries_sid0 world1_session ltac:(simpl; lia) eq_refl
              (or_introl eq_refl)) as [Hinfo Hvalid].
  eexists. split; [exact Hinfo|]. split; [exact Hvalid|].
  vm_compute. reflexivity.
Defined.


(** In that run the provider, which takes a refresh token once, rejects
    the second call, and the second request deletes the session the
    first one has just refreshed. *)
Example concurrent_refresh_trace :
  let sv := schedule Demo.kc_once [0; 1; 0; 1]
              {| tasks := [validate_session (Demo.with_cookie "sid0") 2000;
                           validate_session (Demo.with_cookie "sid0") 2000];
                 state := Demo.world1 |} in
  tasks sv = [Ret (validate_response "AT1");
              Raise (HTTPException 401 "Session expired")]
  ∧ upstream (state sv) = [refresh_request "RT0"; refresh_request "RT0"]
  ∧ sessions (store (state sv)) !! "sid0" = None.
Proof. vm_compute. done. Qed.



Lemma ensure_fresh_boundary_witness :
  upstream (run Demo.kc_accept
              (validate_session (Demo.with_cookie "sid0") 1299)
              (state Demo.server1)).2
  = upstream (state Demo.server1)
  ∧ ∃ rt,
      upstream (run Demo.kc_accept
                  (validate_session (Demo.with_cookie "sid0") 1300)
                  (state Demo.server1)).2
      = upstream (state Demo.server1) ++ [refresh_request rt].
Proof.
  split.
  - pose proof (ensure_fresh_boundary Demo.kc_accept Demo.server1
                  (Demo.with_cookie "sid0") "sid0" 3600%Z
                  (Demo.record "enc:AT1" "enc:RT1" 1300 1000) 1299 "sid1"
                  server1_reachable carries_sid0 server1_session) as Hb.
    cbv zeta in Hb. destruct Hb as [Hfresh _].
    destruct (Hfresh ltac:(simpl; lia)) as (_ & _ & Hv).
    rewrite Hv. reflexivity.
  - pose proof (ensure_fresh_boundary Demo.kc_accept Demo.server1
                  (Demo.with_cookie "sid0") "sid0" 3600%Z
                  (Demo.record "enc:AT1" "enc:RT1" 1300 1000) 1300 "sid1"
                  server1_reachable carries_sid0 server1_session) as Hb.
    cbv zeta in Hb. destruct Hb as [_ Hexp].
    destruct (Hexp ltac:(simpl; lia)) as (rt & _ & _ & Hv).
    exists rt. exact Hv.
Defined.

(** C5, as stated, fails: the stored access token does not decrypt, and
    Validate neither answers 401 nor deletes the record. *)
Lemma corrupt_access_token_counterexample :
  ¬ session_dropped Demo.kc_accept
      (validate_session (Demo.with_cookie "sid0") 1100) "sid0"
      Demo.world_corrupt.
Proof. intros [[d Hd] _]. vm_compute in Hd. discriminate. Qed.

(** The decryption error leaves the handler as it is (a 500 for the
    caller), and the store is untouched. *)
Example corrupt_access_token_trace :
  run Demo.kc_accept (validate_session (Demo.with_cookie "sid0") 1100)
      Demo.world_corrupt
  = (Raised InvalidToken, Demo.world_corrupt).
Proof. vm_compute. reflexivity. Qed.

Lemma corrupt_refresh_token_drops_session_witness :
  session_dropped Demo.kc_accept
    (get_session_info (Demo.with_cookie "sid0") 2000 "sid1") "sid0"
    Demo.world_corrupt_refresh
  ∧ session_dropped Demo.kc_accept
      (validate_session (Demo.with_cookie "sid0") 2000) "sid0"
      Demo.world_corrupt_refresh.
Proof.
  destruct (corrupt_refresh_token_drops_session Demo.kc_accept
              (Demo.with_cookie "sid0") Demo.world_corrupt_refresh "sid0"
              3600%Z (Demo.record "enc:AT0" "garbage" 1300 1000) 2000 "sid1"
              carries_sid0 ltac:(vm_compute; reflexivity)
              ltac:(simpl; lia) eq_refl) as (Hinfo & Hvalid & _).
  split; [exact Hinfo|exact Hvalid].
Defined.

Lemma tokens_stay_encrypted_witness :
  store_encrypted (store (state Demo.server1))
  ∧ encrypted (Demo.record "enc:AT1" "enc:RT1" 1300 1000).
Proof.
  destruct (tokens_stay_encrypted Demo.kc_accept Demo.server1
              server1_reachable) as (Hstore & _).
  split; [exact Hstore|]. exact (Hstore _ _ _ server1_session).
Defined.

Lemma session_info_rotates_witness :
  ∃ w',
    run Demo.kc_accept
      (get_session_info (Demo.with_cookie "sid0") 2000 "sid1") Demo.world1
    = (Returned (session_response 1000 "sid1"), w')
    ∧ sessions (store w') !! "sid0" = None
    ∧ is_Some (sessions (store w') !! "sid1").
Proof.
  set (w' := (run Demo.kc_accept
                (get_session_info (Demo.with_cookie "sid0") 2000 "sid1")
                Demo.world1).2).
  assert (run Demo.kc_accept
            (get_session_info (Demo.with_cookie "sid0") 2000 "sid1")
            Demo.world1
          = (Returned (session_response 1000 "sid1"), w')) as Hrun
    by (vm_compute; reflexivity).
  destruct (session_info_rotates Demo.kc_accept (Demo.with_cookie "sid0")
              Demo.world1 "sid0" 2000 "sid1" _ w' carries_sid0
              ltac:(discriminate) Hrun)
    as (ttl & s & s' & _ & Hold & Hnew & _).
  exists w'. split; [exact Hrun|]. split; [exact Hold|].
  exists (session_ttl settings, s'). exact Hnew.
Defined.

Lemma validate_keeps_identifier_witness :
  ∃ w',
    run Demo.kc_accept
      (validate_session (Demo.with_cookie "sid0") 2000) Demo.world1
    = (Returned (validate_response "AT1"), w')
    ∧ dom (sessions (store w')) = dom (sessions (store Demo.world1)).
Proof.
  set (w' := (run Demo.kc_accept
                (validate_session (Demo.with_cookie "sid0") 2000)
                Demo.world1).2).
  assert (run Demo.kc_accept
            (validate_session (Demo.with_cookie "sid0") 2000) Demo.world1
          = (Returned (validate_response "AT1"), w')) as Hrun
    by (vm_compute; reflexivity).
  destruct (validate_keeps_identifier Demo.kc_accept
              (Demo.with_cookie "sid0") Demo.world1 "sid0" 2000 _ w'
              carries_sid0 Hrun)
    as [(ttl & s & s' & token & _ & Hdom & _) _].
  exists w'. split; [exact Hrun|exact Hdom].
Defined.

Lemma logout_unconditional_witness :
  ∃ w',
    run Demo.kc_down (logout (Demo.with_cookie "sid0")) Demo.world1
    = (Returned logout_response, w')
    ∧ sessions (store w') !! "sid0" = None.
Proof.
  destruct (logout_unconditional Demo.kc_down (Demo.with_cookie "sid0")
              Demo.world1 "sid0" carries_sid0)
    as (w' & Hrun & _ & Hgone & _).
  exists w'. split; [exact Hrun|exact Hgone].
Defined.

Lemma created_at_is_fixed_witness :
  let out := browse Demo.kc_accept
               [Visit_validate 1100; Visit_session 2000 "sid1";
                Visit_session 2100 "sid2"; Visit_validate 2400]
               "sid0" Demo.world1 in
  out.2.1 = "sid2"
  ∧ ∀ ttl s, sessions (store out.2.2) !! out.2.1 = Some (ttl, s) →
             created_at s = 1000%Z.
Proof.
  pose proof (created_at_is_fixed Demo.kc_accept
                [Visit_validate 1100; Visit_session 2000 "sid1";
                 Visit_session 2100 "sid2"; Visit_validate 2400]
                "sid0" Demo.world1 3600%Z
                (Demo.record "enc:AT0" "enc:RT0" 1300 1000)
                world1_session) as Hfix.
  cbv zeta in Hfix. destruct Hfix as (Hend & _).
  split; [vm_compute; reflexivity|exact Hend].
Defined.

End Checks.

(** * Beyond the claims: the rest of the auth service *)

Section Coverage.
Context `{!Runtime}.

Ltac open_prog :=
  unfold login, callback, logout, get_session_info, validate_session, health,
    get_keycloak_token, refresh_access_token, client_post, assign_new_tokens,
    store_session, get_session, delete_session, redis_do,
    decrypt_token, response_json, subscript, encode, add_number in *.

Ltac walk :=
  repeat (first [ progress cbn in * | progress simplify_eq
                | split | intro | case_match | done ]).

(** ** Requests that present no usable cookie *)

(** X1: a request without the session cookie, or with an empty one, is
    answered 401 "No session" by Session-Info and by Validate; the
    store is not touched and the provider is not called. *)
Theorem missing_cookie_is_401 kc request w now token :
  truthy (get_session_id_from_request request) = None →
  run kc (get_session_info request now token) w
    = (Raised (HTTPException 401 "No session"), w)
  ∧ run kc (validate_session request now) w
    = (Raised (HTTPException 401 "No session"), w).
Proof. intros Hc. open_prog. by rewrite Hc. Qed.

Lemma unknown_session kc request w sid now token :
  carries request sid →
  sessions (store w) !! sid = None →
  run kc (get_session_info request now token) w
    = (Raised (HTTPException 401 "Invalid session"), w)
  ∧ run kc (validate_session request now) w
    = (Raised (HTTPException 401 "Invalid session"), w).
Proof.
  unfold carries. intros Hc Hs. open_prog. rewrite Hc. cbn. rewrite Hs.
  by destruct w.
Qed.

(** X2: a request whose cookie names no stored session is answered 401
    "Invalid session" by Session-Info and by Validate; the store is not
    touched and the provider is not called. *)
Theorem unknown_session_is_401 kc request w sid now token :
  carries request sid →
  sessions (store w) !! sid = None →
  run kc (get_session_info request now token) w
    = (Raised (HTTPException 401 "Invalid session"), w)
  ∧ run kc (validate_session request now) w
    = (Raised (HTTPException 401 "Invalid session"), w).
Proof. intros. by eapply unknown_session. Qed.

(** X3: once Session-Info has rotated the identifier, a request that
    still presents the old cookie is answered 401 "Invalid session" by
    Session-Info and by Validate, whatever the provider would say. *)
Theorem stale_cookie_after_rotation
    kc kc' request w sid now token resp w1 now' token' :
  carries request sid →
  token ≠ sid →
  run kc (get_session_info request now token) w = (Returned resp, w1) →
  run kc' (get_session_info request now' token') w1
    = (Raised (HTTPException 401 "Invalid session"), w1)
  ∧ run kc' (validate_session request now') w1
    = (Raised (HTTPException 401 "Invalid session"), w1).
Proof.
  intros Hc Hne Hrun.
  destruct (session_info_returned _ _ _ _ _ _ _ _ Hc Hrun)
    as (ttl & s & s' & _ & _ & Hst & _).
  apply (unknown_session _ _ _ sid); [done|].
  by rewrite Hst, lookup_insert_ne, lookup_delete_eq.
Qed.


Lemma validate_raises kc request w now e w' :
  (∀ sid ttl s, sessions (store w) !! sid = Some (ttl, s) →
                ∃ a, access_token s = encrypt_token a) →
  run kc (validate_session request now) w = (Raised e, w') →
  ∃ detail, e = HTTPException 401 detail.
Proof.
  intros Henc Hrun. open_prog.
  destruct (truthy (get_session_id_from_request request)) as [sid|];
    [|walk; by eexists].
  cbn in Hrun.
  destruct (sessions (store w) !! sid) as [[ttl s]|] eqn:Hs;
    [|walk; by eexists].
  destruct (Henc _ _ _ Hs) as [a Ha]. cbn in Hrun.
  unfold encrypt_token in *.
  destruct (now >=? access_token_expires_at s)%Z; cbn in Hrun.
  - repeat (first [ progress cbn in Hrun | progress simplify_eq
                  | rewrite fernet_decrypt_encrypt in Hrun
                  | case_match | by eexists ]).
  - rewrite Ha, fernet_decrypt_encrypt in Hrun. cbn in Hrun. simplify_eq.
Qed.

(** X5: in every state the service can reach, Validate either returns or
    raises an HTTPException with status 401; the decryption of the
    stored access token cannot fail there. *)
Theorem validate_raises_only_401 kc kc' sv request now e w' :
  reachable kc sv →
  run kc' (validate_session request now) (state sv) = (Raised e, w') →
  ∃ detail, e = HTTPException 401 detail.
Proof.
  intros Hreach. apply validate_raises. intros sid ttl s Hs.
  destruct (reachable_encrypted _ _ Hreach) as [Henc _].
  destruct (Henc _ _ _ Hs) as (a & _ & Ha & _). by exists a.
Qed.

(** ** The refresh path has two ends *)


(** ** Callback when the exchange does not go through *)

(** X7: a callback whose state is bound but whose exchange does not go
    through (provider unreachable, code rejected, reply without the
    tokens) creates no session and has consumed the binding all the
    same: the exchange form was posted once, and every later callback
    with that state is answered 400. *)
Theorem failed_exchange_consumes_state
    kc request w code st sid t1 t2 ttl v e w' :
  pkce (store w) !! st = Some (ttl, v) →
  v ≠ "" →
  run kc (callback request code st sid t1 t2) w = (Raised e, w') →
  sessions (store w') = sessions (store w)
  ∧ pkce (store w') = delete st (pkce (store w))
  ∧ upstream w' = upstream w ++ [exchange_request code v]
  ∧ ∀ kc' rq' code' sid' t1' t2',
      run kc' (callback rq' code' st sid' t1' t2') w'
      = (Raised (HTTPException 400 "Invalid or expired state"), w').
Proof.
  intros Hv Hne Hrun.
  assert (sessions (store w') = sessions (store w)
          ∧ pkce (store w') = delete st (pkce (store w))
          ∧ upstream w' = upstream w ++ [exchange_request code v])
    as (Hs & Hp & Hu).
  { unfold exchange_request. open_prog. cbn in Hrun. rewrite Hv in Hrun.
    cbn in Hrun. destruct (decide (v = "")) as [?|_]; [done|].
    walk. }
  repeat split; try done. intros. apply callback_unbound.
  unfold unbound. by rewrite Hp, lookup_delete_eq.
Qed.

(** X8: a callback whose state is not bound (never issued, expired,
    consumed) or is bound to an empty verifier is answered 400 "Invalid
    or expired state"; nothing is stored or deleted and the provider is
    not called. *)
Theorem unbound_state_is_400 kc request w code st sid t1 t2 :
  truthy (snd <$> pkce (store w) !! st) = None →
  run kc (callback request code st sid t1 t2) w
  = (Raised (HTTPException 400 "Invalid or expired state"), w).
Proof. intros Hu. open_prog. cbn. rewrite Hu. by destruct w. Qed.

(** ** Login, then callback *)

(** X9: login binds its state to its verifier for 300 seconds, touches
    no session and calls no one; the callback for that state then posts
    the exchange form with exactly that verifier, the one whose S256
    challenge login put into the redirect. *)
Theorem login_then_callback kc request v st w rq' code sid t1 t2 :
  generate_pkce_verifier v ≠ "" →
  let w1 := (run kc (login request v st) w).2 in
  (run kc (login request v st) w).1 = Returned (login_response st v)
  ∧ pkce (store w1) = <[st := (300%Z, generate_pkce_verifier v)]> (pkce (store w))
  ∧ sessions (store w1) = sessions (store w)
  ∧ upstream w1 = upstream w
  ∧ upstream (run kc (callback rq' code st sid t1 t2) w1).2
    = upstream w ++ [exchange_request code (generate_pkce_verifier v)].
Proof.
  intros Hne. cbn. repeat split; try done.
  unfold exchange_request. open_prog. cbn. rewrite lookup_insert_eq. cbn.
  destruct (decide (generate_pkce_verifier v = "")) as [?|_]; [done|].
  walk.
Qed.

(** ** Callback, then validate *)


(** ** Logout *)

Lemma logout_store kc request w sid :
  carries request sid →
  store (run kc (logout request) w).2
  = {| sessions := delete sid (sessions (store w)); pkce := pkce (store w) |}.
Proof. unfold carries. intros Hc. open_prog. rewrite Hc. walk. Qed.

(** X11: after logout, Session-Info and Validate with the same cookie
    are answered 401 "Invalid session", and a second logout changes
    nothing and still returns the redirect that clears the cookie. *)
Theorem logout_ends_session kc kc' request w sid now token :
  carries request sid →
  let w1 := (run kc (logout request) w).2 in
  run kc' (get_session_info request now token) w1
    = (Raised (HTTPException 401 "Invalid session"), w1)
  ∧ run kc' (validate_session request now) w1
    = (Raised (HTTPException 401 "Invalid session"), w1)
  ∧ run kc' (logout request) w1 = (Returned logout_response, w1).
Proof.
  intros Hc w1.
  assert (sessions (store w1) !! sid = None) as Hgone.
  { subst w1. rewrite (logout_store _ _ _ _ Hc). cbn.
    apply lookup_delete_eq. }
  unfold carries in Hc. open_prog. rewrite Hc. cbn. rewrite Hgone. cbn.
  destruct w1 as [[ss pk] up]. cbn in *.
  rewrite delete_id by done. done.
Qed.

(** X12: logout posts to the provider only when the cookie names a
    stored session whose refresh token decrypts, and then exactly one
    form, to the logout endpoint, with the client id and the refresh
    token and without the client secret. *)
Theorem logout_revokes_once kc request w :
  upstream (run kc (logout request) w).2 =
    match truthy (get_session_id_from_request request) with
    | Some sid =>
        match sessions (store w) !! sid with
        | Some (_, s) =>
            match fernet_decrypt get_fernet (refresh_token s) with
            | Some rt => upstream w ++ [revoke_request rt]
            | None => upstream w
            end
        | None => upstream w
        end
    | None => upstream w
    end.
Proof. unfold revoke_request. open_prog. walk. Qed.

(** ** Key and verifier lengths *)

Lemma string_length_append (s1 s2 : string) :
  String.length (s1 +:+ s2) = String.length s1 + String.length s2.
Proof.
  induction s1 as [|c s1 IH]; [done|].
  change (String c s1 +:+ s2) with (String c (s1 +:+ s2)). cbn.
  by rewrite IH.
Qed.


Lemma length_substring_0 (n : nat) (s : string) :
  String.length (substring 0 n s) = n `min` String.length s.
Proof.
  revert s. induction n as [|n IH]; intros [|c s]; cbn; try done.
  by rewrite IH.
Qed.

Lemma substring_0_all (n : nat) (s : string) :
  (String.length s ≤ n)%nat → substring 0 n s = s.
Proof.
  revert s. induction n as [|n IH]; intros [|c s]; cbn; try done; try lia.
  intros Hl. f_equal. apply IH. lia.
Qed.



(** X14: the PKCE verifier is the random text cut to 128 characters: it
    is never longer than 128, and a text of at most 128 characters is
    kept whole. *)
Theorem pkce_verifier_bounds (token_urlsafe_64 : string) :
  String.length (generate_pkce_verifier token_urlsafe_64)
  = 128 `min` String.length token_urlsafe_64
  ∧ ((String.length token_urlsafe_64 ≤ 128)%nat →
     generate_pkce_verifier token_urlsafe_64 = token_urlsafe_64).
Proof.
  unfold generate_pkce_verifier. split.
  - apply length_substring_0.
  - apply substring_0_all.
Qed.

(** ** What a request leaves alone *)

(** X15: Session-Info, Validate and Logout leave every session other
    than the one the cookie names (and the one Session-Info creates)
    exactly as stored, and never touch a PKCE binding. *)
Theorem other_sessions_untouched kc request w now token other :
  truthy (get_session_id_from_request request) ≠ Some other →
  other ≠ token →
  let info := (run kc (get_session_info request now token) w).2 in
  let valid := (run kc (validate_session request now) w).2 in
  let out := (run kc (logout request) w).2 in
  sessions (store info) !! other = sessions (store w) !! other
  ∧ sessions (store valid) !! other = sessions (store w) !! other
  ∧ sessions (store out) !! other = sessions (store w) !! other
  ∧ pkce (store info) = pkce (store w)
  ∧ pkce (store valid) = pkce (store w)
  ∧ pkce (store out) = pkce (store w).
Proof.
  intros Hc Hne. open_prog.
  destruct (truthy (get_session_id_from_request request)) as [sid|];
    [|by cbn].
  assert (sid ≠ other) as Hsid by congruence.
  repeat (first [ progress cbn | split | case_match | done
                | rewrite lookup_insert_ne by done
                | rewrite lookup_delete_ne by done ]).
Qed.

(** ** A reply without [expires_in] *)


(** ** Calls to the provider *)

(** X17: a request makes at most one call to the provider: the calls
    recorded after any handler are those before it, followed by at most
    one. *)
Theorem one_call_per_request kc p w :
  handler p →
  ∃ calls, upstream (run kc p w).2 = upstream w ++ calls
           ∧ (length calls ≤ 1)%nat.
Proof.
  destruct 1; open_prog.
  all: repeat (first [ progress cbn | case_match ]).
  all: first [ exists []; split; [by rewrite app_nil_r|cbn; lia]
             | eexists [_]; split; [reflexivity|cbn; lia] ].
Qed.

(** ** Requests that never give up control *)

(** X18: Session-Info and Validate on a session that is absent or
    before its deadline finish in the step they are scheduled in, without
    awaiting: no other request runs in between. *)
Theorem fresh_requests_never_await request now token r sid :
  carries request sid →
  (∀ ttl s, sessions r !! sid = Some (ttl, s) →
            (now < access_token_expires_at s)%Z) →
  finished (advance (get_session_info request now token) r).1
  ∧ finished (advance (validate_session request now) r).1.
Proof.
  unfold carries. intros Hc Hfresh. open_prog. rewrite Hc. cbn.
  destruct (sessions r !! sid) as [[ttl s]|] eqn:Hs; cbn; [|done].
  rewrite (geb_fresh _ _ (Hfresh _ _ eq_refl)). cbn.
  split; [done|]. by destruct (fernet_decrypt _ _).
Qed.

End Coverage.

(** * The reports service *)

Section ReportsCoverage.
Import Reports.
Context `{!Reports.Runtime}.

(** ** The keys of the report cache *)

Lemma append_cons (c : ascii) (s t : string) :
  String c s +:+ t = String c (s +:+ t).
Proof. done. Qed.

Lemma append_inj_r (s1 s2 t : string) : s1 +:+ t = s2 +:+ t → s1 = s2.
Proof.
  intros Heq.
  assert (String.length s1 = String.length s2) as Hlen.
  { apply (f_equal String.length) in Heq.
    rewrite !string_length_append in Heq. lia. }
  revert s2 Heq Hlen. induction s1 as [|c s1 IH]; intros [|c2 s2] Heq Hlen;
    try done.
  rewrite !append_cons in Heq. injection Heq as -> Heq.
  f_equal. apply IH; [done|]. cbn in Hlen. lia.
Qed.

Lemma slash_splits (u1 u2 t1 t2 : string) :
  no_slash u1 → no_slash u2 →
  u1 +:+ "/" +:+ t1 = u2 +:+ "/" +:+ t2 → u1 = u2 ∧ t1 = t2.
Proof.
  revert u2. induction u1 as [|c u1 IH]; intros [|c2 u2] H1 H2 Heq.
  - split; [done|]. by injection Heq.
  - rewrite append_cons in Heq. injection Heq as <- _. by destruct H2.
  - rewrite append_cons in Heq. injection Heq as -> _. by destruct H1.
  - rewrite !append_cons in Heq. injection Heq as -> Heq.
    destruct H1 as [_ H1], H2 as [_ H2].
    destruct (IH u2 H1 H2 Heq) as [-> ->]. done.
Qed.

(** X19: two cache keys are equal only for the same user and the same
    date, provided the user identifiers contain no slash. *)
Theorem report_key_injective (u1 u2 d1 d2 : string) :
  no_slash u1 → no_slash u2 →
  get_report_s3_key (PyStr u1) d1 = get_report_s3_key (PyStr u2) d2 →
  u1 = u2 ∧ d1 = d2.
Proof.
  unfold get_report_s3_key. rewrite !py_str_str. intros H1 H2 Heq.
  apply (inj (String.append "reports/")) in Heq.
  destruct (slash_splits _ _ _ _ H1 H2 Heq) as [-> Hd].
  split; [done|]. by apply append_inj_r in Hd.
Qed.

(** ** Whose report *)

(** X20: a request for the report of a user identifier other than the
    caller's own is answered 403 before the bucket or ClickHouse is
    touched; for the caller's own identifier it is the caller's report
    with the default dates. *)
Theorem report_by_id_access e target u w :
  (u_user_id u ≠ PyStr target →
   get_report_by_user_id e target u w = (Raised access_denied, w))
  ∧ (u_user_id u = PyStr target →
     get_report_by_user_id e target u w = get_user_report e u None None w).
Proof.
  unfold get_report_by_user_id, access_denied. split.
  - intros Hne. destruct (u_user_id u); try done.
    case_decide; [congruence|done].
  - intros ->. by rewrite decide_True.
Qed.

(** ** The cache *)

(** X21: when the bucket holds a report for the caller and the end date,
    the answer is the CDN address of that object, without data and
    without a query to ClickHouse, whatever start date was asked for. *)
Theorem cached_report_ignores_start_date e u i n start_date end_date w d :
  u_user_id u = PyStr i →
  u_username u = PyStr n →
  head_answers e = true →
  let day := default (today e) (truthy end_date) in
  objects w !! get_report_s3_key (PyStr i) day = Some d →
  get_user_report e u start_date end_date w =
    (Returned {| user_id := i; username := n; report_date := day;
                 report_url := Some (cdn_url (PyStr i) day);
                 data := None;
                 message := Some "Report retrieved from cache" |}, w).
Proof.
  intros Hi Hn Hh day Hobj. unfold get_user_report, cdn_url.
  rewrite Hi, Hn, Hh. fold day. rewrite Hobj. done.
Qed.

(** X22: a report generated from ClickHouse is stored in the bucket
    under the caller's key for the end date, and the next request for
    that end date, with any start date, is answered from the cache with
    the same address and no new query. *)
Theorem generated_report_is_cached
    e u i n start_date end_date w result e' start_date' :
  u_user_id u = PyStr i →
  u_username u = PyStr n →
  let day := default (today e) (truthy end_date) in
  let start := default (month_ago e) (truthy start_date) in
  (head_answers e = false ∨ objects w !! get_report_s3_key (PyStr i) day = None) →
  clickhouse e (PyStr n) start day = inr result →
  result ≠ [] →
  put_answers e = true →
  head_answers e' = true →
  day ≠ "" →
  ∃ w1,
    get_user_report e u start_date end_date w =
      (Returned {| user_id := i; username := n; report_date := day;
                   report_url := Some (cdn_url (PyStr i) day);
                   data := Some (report_data e u start day result);
                   message := Some "Report generated successfully" |}, w1)
    ∧ objects w1 = <[get_report_s3_key (PyStr i) day :=
                       report_data e u start day result]> (objects w)
    ∧ queries w1 = queries w ++ [(PyStr n, start, day)]
    ∧ get_user_report e' u start_date' (Some day) w1 =
        (Returned {| user_id := i; username := n; report_date := day;
                     report_url := Some (cdn_url (PyStr i) day);
                     data := None;
                     message := Some "Report retrieved from cache" |}, w1).
Proof.
  intros Hi Hn day start Hmiss Hch Hne Hput Hhead Hday.
  eexists. split; [|split; [|split]].
  - unfold get_user_report, cdn_url. rewrite Hi, Hn. fold day start.
    assert ((if head_answers e
             then _ ← objects w !! get_report_s3_key (PyStr i) day;
                  new_ReportResponse (PyStr i) (PyStr n) day
                    (Some (cdn_base_url settings +:+ "/"
                           +:+ get_report_s3_key (PyStr i) day))
                    None (Some "Report retrieved from cache")
             else None) = None) as ->.
    { destruct Hmiss as [-> | ->]; [done|by destruct (head_answers e)]. }
    rewrite Hch, Hput. destruct result; [done|]. reflexivity.
  - done.
  - done.
  - assert (truthy (Some day) = Some day) as Ht
      by (cbn; by rewrite decide_False).
    unfold get_user_report, cdn_url. rewrite Hi, Hn, Hhead, Ht. cbn.
    by rewrite lookup_insert_eq.
Qed.

(** X23: whether the bucket accepts the write or not changes neither
    the answer of the request nor the queries made. *)
Theorem put_failure_is_swallowed e u start_date end_date w b :
  (get_user_report (with_put e b) u start_date end_date w).1
  = (get_user_report e u start_date end_date w).1
  ∧ queries (get_user_report (with_put e b) u start_date end_date w).2
    = queries (get_user_report e u start_date end_date w).2.
Proof.
  unfold get_user_report, with_put. cbn.
  split; repeat (first [ progress cbn | case_match | done ]).
  all: unfold report_data in *; cbn in *; congruence.
Qed.

(** X24: when ClickHouse has no rows for the period, the answer carries
    the "No data available" message, no address and no data, and
    nothing is written to the bucket. *)
Theorem no_data_stores_nothing e u i n start_date end_date w :
  u_user_id u = PyStr i →
  u_username u = PyStr n →
  let day := default (today e) (truthy end_date) in
  let start := default (month_ago e) (truthy start_date) in
  (head_answers e = false ∨ objects w !! get_report_s3_key (PyStr i) day = None) →
  clickhouse e (PyStr n) start day = inr [] →
  get_user_report e u start_date end_date w =
    (Returned {| user_id := i; username := n; report_date := day;
                 report_url := None; data := None;
                 message := Some no_data |},
     {| objects := objects w;
        queries := queries w ++ [(PyStr n, start, day)] |}).
Proof.
  intros Hi Hn day start Hmiss Hch.
  unfold get_user_report. rewrite Hi, Hn. fold day start.
  assert ((if head_answers e
           then _ ← objects w !! get_report_s3_key (PyStr i) day;
                new_ReportResponse (PyStr i) (PyStr n) day
                  (Some (cdn_base_url settings +:+ "/"
                         +:+ get_report_s3_key (PyStr i) day))
                  None (Some "Report retrieved from cache")
           else None) = None) as ->.
  { destruct Hmiss as [-> | ->]; [done|by destruct (head_answers e)]. }
  by rewrite Hch.
Qed.

(** X25: a caller whose token has no string [sub] or no string
    [preferred_username] never gets a report. *)
Theorem nameless_user_gets_500 e u start_date end_date w resp w' :
  (∀ i n, ¬ (u_user_id u = PyStr i ∧ u_username u = PyStr n)) →
  get_user_report e u start_date end_date w ≠ (Returned resp, w').
Proof.
  intros Hu. unfold get_user_report.
  assert (∀ d a b c, new_ReportResponse (u_user_id u) (u_username u) d a b c
                     = None) as Hnew.
  { intros. unfold new_ReportResponse.
    destruct (u_user_id u) eqn:?, (u_username u) eqn:?; try done.
    by destruct (Hu s s0). }
  rewrite !Hnew.
  assert (∀ (o : option pyval), (o ≫= λ _, @None ReportResponse) = None)
    as Hbind by (by intros []).
  rewrite Hbind.
  repeat (first [ progress cbn | case_match | intro | progress simplify_eq
                | done ]).
  all: match goal with
       | Hr : new_ReportResponse _ _ _ _ _ _ = Some _ |- _ =>
           by rewrite Hnew in Hr
       end.
Qed.

(** ** The caller *)

(** X26: every HTTPException of get_current_user is a 401, and a user
    is returned only for a 200 from the auth service whose body is an
    object with a truthy access_token whose claims could be read; the
    user id is then the [sub] claim and the user name the
    [preferred_username] claim. *)
Theorem current_user_from_token response :
  (∀ st detail, get_current_user response = Raised (HTTPException st detail) →
                st = 401%Z)
  ∧ (∀ u, get_current_user response = Returned u →
       ∃ d payload,
         response = HttpResponse 200 (Some (PyDict d))
         ∧ py_truthy (claim d "access_token") = true
         ∧ get_unverified_claims (claim d "access_token") = inr payload
         ∧ u_user_id u = claim payload "sub"
         ∧ u_username u = claim payload "preferred_username").
Proof.
  unfold get_current_user. split.
  - intros st detail Hr.
    repeat (first [ progress simplify_eq | case_match | done ]).
  - intros u Hr. destruct response as [st body|text]; [|done].
    destruct (decide (st = 200%Z)) as [->|Hst];
      [|by rewrite decide_True in Hr].
    rewrite decide_False in Hr by (by intros []).
    repeat (first [ progress simplify_eq | case_match ]).
    eexists _, _; repeat split; try done.
    by apply negb_false_iff.
Qed.

(** ** The totals *)

Lemma py_sum_ints (acc : Z) (zs : list Z) :
  foldl py_add (PyInt acc) (PyInt <$> filter (λ n, n ≠ 0%Z) zs)
  = PyInt (acc + foldr Z.add 0%Z zs).
Proof.
  revert acc. induction zs as [|z zs IH]; intros acc.
  - cbn. by rewrite Z.add_0_r.
  - rewrite filter_cons. case_decide as Hz.
    + cbn. rewrite IH. f_equal. lia.
    + subst z. rewrite IH. by cbn.
Qed.

(** X27: in the summary of a report, total_days is the number of rows
    and total_movements and total_errors are the sums of the columns
    over all rows (leaving out the zeros changes no sum). *)
Theorem summary_totals (result : list row) :
  ∃ l, summary result = PyDict l
       ∧ dict_get l "total_days" = Some (PyInt (Z.of_nat (length result)))
       ∧ dict_get l "total_movements"
         = Some (PyInt (foldr Z.add 0%Z (r4 <$> result)))
       ∧ dict_get l "total_errors"
         = Some (PyInt (foldr Z.add 0%Z (r5 <$> result))).
Proof.
  eexists. split; [reflexivity|]. cbn. unfold py_sum.
  by rewrite !py_sum_ints.
Qed.

End ReportsCoverage.

(** * The further theorems at work on the small deployments *)

Section CoverageChecks.
#[local] Existing Instance Demo.runtime.

Lemma missing_cookie_is_401_witness :
  run Demo.kc_down (get_session_info Demo.no_cookie 2000 "sid1") Demo.world1
    = (Raised (HTTPException 401 "No session"), Demo.world1)
  ∧ run Demo.kc_down (validate_session Demo.no_cookie 2000) Demo.world1
    = (Raised (HTTPException 401 "No session"), Demo.world1).
Proof.
  apply (missing_cookie_is_401 Demo.kc_down Demo.no_cookie Demo.world1 2000
           "sid1").
  vm_compute. reflexivity.
Defined.

Lemma unknown_session_is_401_witness :
  run Demo.kc_down (get_session_info (Demo.with_cookie "sid0") 2000 "sid1")
      Demo.world_pkce
    = (Raised (HTTPException 401 "Invalid session"), Demo.world_pkce)
  ∧ run Demo.kc_down (validate_session (Demo.with_cookie "sid0") 2000)
        Demo.world_pkce
    = (Raised (HTTPException 401 "Invalid session"), Demo.world_pkce).
Proof.
  apply (unknown_session_is_401 Demo.kc_down (Demo.with_cookie "sid0")
           Demo.world_pkce "sid0" 2000 "sid1" carries_sid0).
  vm_compute. reflexivity.
Defined.

Lemma stale_cookie_after_rotation_witness :
  let w1 := (run Demo.kc_accept
               (get_session_info (Demo.with_cookie "sid0") 1100 "sid1")
               Demo.world1).2 in
  run Demo.kc_accept (validate_session (Demo.with_cookie "sid0") 1200) w1
  = (Raised (HTTPException 401 "Invalid session"), w1).
Proof.
  intros w1.
  assert (run Demo.kc_accept
            (get_session_info (Demo.with_cookie "sid0") 1100 "sid1")
            Demo.world1
          = (Returned (session_response 1000 "sid1"), w1)) as Hrun
    by (vm_compute; reflexivity).
  exact (proj2 (stale_cookie_after_rotation Demo.kc_accept Demo.kc_accept
                  (Demo.with_cookie "sid0") Demo.world1 "sid0" 1100 "sid1"
                  _ w1 1200 "sid2" carries_sid0 ltac:(discriminate) Hrun)).
Defined.


Lemma validate_raises_only_401_witness :
  ∃ detail, HTTPException 401 "Session expired" = HTTPException 401 detail.
Proof.
  apply (validate_raises_only_401 Demo.kc_accept Demo.kc_down Demo.server1
           (Demo.with_cookie "sid0") 2000 _
           (run Demo.kc_down (validate_session (Demo.with_cookie "sid0") 2000)
                (state Demo.server1)).2).
  - exact server1_reachable.
  - vm_compute. reflexivity.
Defined.


Lemma failed_exchange_consumes_state_witness :
  let w' := (run Demo.kc_down
               (callback Demo.no_cookie "code0" "st0" "sid0" 1000 1000)
               Demo.world_pkce).2 in
  sessions (store w') = sessions (store Demo.world_pkce)
  ∧ pkce (store w') = delete "st0" (pkce (store Demo.world_pkce))
  ∧ run Demo.kc_accept
      (callback Demo.no_cookie "code0" "st0" "sid0" 1001 1001) w'
    = (Raised (HTTPException 400 "Invalid or expired state"), w').
Proof.
  intros w'.
  destruct (failed_exchange_consumes_state Demo.kc_down Demo.no_cookie
              Demo.world_pkce "code0" "st0" "sid0" 1000 1000 300%Z
              "verifier0" RequestError w'
              ltac:(vm_compute; reflexivity) ltac:(discriminate)
              ltac:(vm_compute; reflexivity))
    as (Hs & Hp & _ & Hreplay).
  split; [exact Hs|]. split; [exact Hp|apply Hreplay].
Defined.

Lemma unbound_state_is_400_witness :
  run Demo.kc_accept (callback Demo.no_cookie "code0" "st1" "sid0" 1000 1000)
      Demo.world_pkce
  = (Raised (HTTPException 400 "Invalid or expired state"), Demo.world_pkce).
Proof.
  apply (unbound_state_is_400 Demo.kc_accept Demo.no_cookie Demo.world_pkce
           "code0" "st1" "sid0" 1000 1000).
  vm_compute. reflexivity.
Defined.

Lemma login_then_callback_witness :
  let w1 := (run Demo.kc_accept (login Demo.no_cookie "verifier0" "st0")
                 initial_world).2 in
  pkce (store w1) = <[ "st0" := (300%Z, "verifier0") ]> ∅
  ∧ upstream (run Demo.kc_accept
                (callback Demo.no_cookie "code0" "st0" "sid0" 1000 1000)
                w1).2
    = [exchange_request "code0" "verifier0"].
Proof.
  pose proof (login_then_callback Demo.kc_accept Demo.no_cookie "verifier0"
                "st0" initial_world Demo.no_cookie "code0" "sid0" 1000 1000
                ltac:(discriminate)) as Hl.
  cbv zeta in Hl. destruct Hl as (_ & Hp & _ & _ & Hu).
  split; [exact Hp|exact Hu].
Defined.


Lemma logout_ends_session_witness :
  let w1 := (run Demo.kc_down (logout (Demo.with_cookie "sid0"))
                 Demo.world1).2 in
  run Demo.kc_accept (validate_session (Demo.with_cookie "sid0") 1100) w1
    = (Raised (HTTPException 401 "Invalid session"), w1)
  ∧ run Demo.kc_accept (logout (Demo.with_cookie "sid0")) w1
    = (Returned logout_response, w1).
Proof.
  pose proof (logout_ends_session Demo.kc_down Demo.kc_accept
                (Demo.with_cookie "sid0") Demo.world1 "sid0" 1100 "sid1"
                carries_sid0) as Hl.
  cbv zeta in Hl. destruct Hl as (_ & Hv & Ho).
  split; [exact Hv|exact Ho].
Defined.


Lemma pkce_verifier_bounds_witness :
  generate_pkce_verifier "verifier0" = "verifier0".
Proof.
  apply (proj2 (pkce_verifier_bounds "verifier0")). vm_compute. lia.
Defined.

Lemma other_sessions_untouched_witness :
  sessions (store (run Demo.kc_down
                     (validate_session (Demo.with_cookie "sid9") 2000)
                     Demo.world1).2) !! "sid0"
  = sessions (store Demo.world1) !! "sid0".
Proof.
  assert (truthy (get_session_id_from_request (Demo.with_cookie "sid9"))
          ≠ Some "sid0") as Hother by (vm_compute; intros [=]).
  pose proof (other_sessions_untouched Demo.kc_down (Demo.with_cookie "sid9")
                Demo.world1 2000 "sid1" "sid0" Hother ltac:(discriminate))
    as Ho.
  cbv zeta in Ho. destruct Ho as (_ & Hv & _). exact Hv.
Defined.


Lemma one_call_per_request_witness :
  ∃ calls,
    upstream (run Demo.kc_accept
                (validate_session (Demo.with_cookie "sid0") 2000)
                Demo.world1).2
    = upstream Demo.world1 ++ calls
    ∧ (length calls ≤ 1)%nat.
Proof.
  apply (one_call_per_request Demo.kc_accept
           (validate_session (Demo.with_cookie "sid0") 2000) Demo.world1).
  apply h_validate.
Defined.

Lemma fresh_requests_never_await_witness :
  finished (advance (get_session_info (Demo.with_cookie "sid0") 1100 "sid1")
                    (store Demo.world1)).1
  ∧ finished (advance (validate_session (Demo.with_cookie "sid0") 1100)
                      (store Demo.world1)).1.
Proof.
  apply (fresh_requests_never_await (Demo.with_cookie "sid0") 1100 "sid1"
           (store Demo.world1) "sid0" carries_sid0).
  intros ttl s Hs. vm_compute in Hs. injection Hs as <- <-. simpl. lia.
Defined.

End CoverageChecks.

Section ReportsChecks.
Import Reports.
#[local] Existing Instance Reports.Demo.runtime.

Lemma report_key_injective_witness :
  "u1" = "u1" ∧ "2024-05-02" = "2024-05-02".
Proof.
  apply (report_key_injective "u1" "u1" "2024-05-02" "2024-05-02").
  - cbn. repeat split; discriminate.
  - cbn. repeat split; discriminate.
  - reflexivity.
Defined.

Lemma report_by_id_access_witness :
  get_report_by_user_id (Demo.rows_env [Demo.day1]) "u2" Demo.alice
                        Demo.empty_world
  = (Raised access_denied, Demo.empty_world).
Proof.
  apply (proj1 (report_by_id_access (Demo.rows_env [Demo.day1]) "u2"
                  Demo.alice Demo.empty_world)).
  discriminate.
Defined.

Lemma cached_report_ignores_start_date_witness :
  let w := {| objects := {[ "reports/u1/2024-05-02/report.json" := PyDict [] ]};
              queries := [] |} in
  get_user_report (Demo.rows_env [Demo.day1]) Demo.alice (Some "2020-01-01")
                  None w
  = (Returned {| user_id := "u1"; username := "alice";
                 report_date := "2024-05-02";
                 report_url :=
                   Some "http://localhost:8082/reports/u1/2024-05-02/report.json";
                 data := None;
                 message := Some "Report retrieved from cache" |}, w).
Proof.
  intros w.
  apply (cached_report_ignores_start_date (Demo.rows_env [Demo.day1])
           Demo.alice "u1" "alice" (Some "2020-01-01") None w (PyDict []));
    reflexivity.
Defined.

Lemma generated_report_is_cached_witness :
  ∃ w1,
    (get_user_report (Demo.rows_env [Demo.day1; Demo.day2]) Demo.alice None
                     None Demo.empty_world).2 = w1
    ∧ get_user_report (Demo.rows_env []) Demo.alice (Some "2020-01-01")
                      (Some "2024-05-02") w1
      = (Returned {| user_id := "u1"; username := "alice";
                     report_date := "2024-05-02";
                     report_url := Some (cdn_url (PyStr "u1") "2024-05-02");
                     data := None;
                     message := Some "Report retrieved from cache" |}, w1).
Proof.
  assert (head_answers (Demo.rows_env [Demo.day1; Demo.day2]) = false
          ∨ objects Demo.empty_world
              !! get_report_s3_key (PyStr "u1") "2024-05-02" = None) as Hmiss
    by (right; reflexivity).
  assert ([Demo.day1; Demo.day2] ≠ []) as Hrows by discriminate.
  assert ("2024-05-02" ≠ "") as Hday by discriminate.
  destruct (generated_report_is_cached (Demo.rows_env [Demo.day1; Demo.day2])
              Demo.alice "u1" "alice" None None Demo.empty_world
              [Demo.day1; Demo.day2] (Demo.rows_env []) (Some "2020-01-01")
              eq_refl eq_refl Hmiss eq_refl Hrows eq_refl eq_refl Hday)
    as (w1 & Hgen & _ & _ & Hhit).
  exists w1. split; [by rewrite Hgen|exact Hhit].
Defined.

Lemma no_data_stores_nothing_witness :
  get_user_report (Demo.rows_env []) Demo.alice None None Demo.empty_world
  = (Returned {| user_id := "u1"; username := "alice";
                 report_date := "2024-05-02";
                 report_url := None; data := None;
                 message := Some no_data |},
     {| objects := ∅;
        queries := [(PyStr "alice", "2024-04-02", "2024-05-02")] |}).
Proof.
  assert (head_answers (Demo.rows_env []) = false
          ∨ objects Demo.empty_world
              !! get_report_s3_key (PyStr "u1") "2024-05-02" = None) as Hmiss
    by (right; reflexivity).
  exact (no_data_stores_nothing (Demo.rows_env []) Demo.alice "u1" "alice"
           None None Demo.empty_world eq_refl eq_refl Hmiss eq_refl).
Defined.

Lemma nameless_user_gets_500_witness :
  get_user_report (Demo.rows_env [Demo.day1]) Demo.nobody None None
                  Demo.empty_world
  ≠ (Returned {| user_id := "None"; username := "None";
                 report_date := "2024-05-02"; report_url := None;
                 data := None; message := None |}, Demo.empty_world).
Proof.
  apply (nameless_user_gets_500 (Demo.rows_env [Demo.day1]) Demo.nobody None
           None Demo.empty_world).
  intros i n [Hi _]. discriminate Hi.
Defined.

Lemma current_user_from_token_witness :
  ∃ d payload,
    HttpResponse 200 (Some (PyDict [("access_token", PyStr "token-alice")]))
    = HttpResponse 200 (Some (PyDict d))
    ∧ py_truthy (claim d "access_token") = true
    ∧ get_unverified_claims (claim d "access_token") = inr payload
    ∧ u_user_id Demo.alice = claim payload "sub"
    ∧ u_username Demo.alice = claim payload "preferred_username".
Proof.
  apply (proj2 (current_user_from_token
                  (HttpResponse 200
                     (Some (PyDict [("access_token", PyStr "token-alice")]))))
               Demo.alice).
  reflexivity.
Defined.

End ReportsChecks.
